(** * The Tag integration: a shallow embedding of
    [homeassistant/components/tag/__init__.py] and the properties of its
    storage collection, scan handler and entity projection. *)

From Stdlib Require Import ZArith NArith String Ascii List Lia.
From stdpp Require Import base option gmap strings pretty fin_maps.

Local Open Scope string_scope.

(** ** Python values *)

(** [datetime.datetime]: the civil fields and the offset from UTC of an
    aware value, in microseconds ([None] for a naive value). *)
Record datetime := mk_datetime {
  dt_year : N;
  dt_month : N;
  dt_day : N;
  dt_hour : N;
  dt_minute : N;
  dt_second : N;
  dt_microsecond : N;
  dt_utcoffset : option Z
}.

(** The values a payload or a stored record can hold. *)
Inductive value :=
  | VNone
  | VStr (s : string)
  | VInt (z : Z)
  | VDatetime (d : datetime).

#[global] Instance datetime_eq_dec : EqDecision datetime.
Proof. solve_decision. Defined.

#[global] Instance value_eq_dec : EqDecision value.
Proof. solve_decision. Defined.

(** A Python [dict] with [str] keys. *)
Abbreviation dict := (gmap string value).

(** The exceptions the module can raise. *)
Inductive error :=
  | Invalid                            (* voluptuous.Invalid *)
  | KeyError (k : string)
  | AttributeError
  | TypeError
  | ValueError
  | TagIDExistsError (item_id : string)
  | ItemNotFound (item_id : string)
  | HomeAssistantError (msg : string).

Inductive result (A : Type) :=
  | Ok (a : A)
  | Err (e : error).
Arguments Ok {A} a.
Arguments Err {A} e.

#[global] Instance result_ret : MRet result := λ A a, Ok a.

#[global] Instance result_bind : MBind result := λ A B f r,
  match r with
  | Ok a => f a
  | Err e => Err e
  end.

Definition is_ok {A} (r : result A) : bool :=
  match r with Ok _ => true | Err _ => false end.

Definition ok_value {A} (r : result A) : option A :=
  match r with Ok a => Some a | Err _ => None end.

(** [d[k]]: subscription raises [KeyError] on a missing key. *)
Definition getitem {V} (d : gmap string V) (k : string) : result V :=
  match d !! k with
  | Some v => Ok v
  | None => Err (KeyError k)
  end.

(** [d.get(k, default)]. *)
Definition dict_get (d : dict) (k : string) (default : value) : value :=
  match d !! k with
  | Some v => v
  | None => default
  end.

(** Truth value of an object, as tested by [not x] and [x or y]. *)
Definition truthy (v : value) : bool :=
  match v with
  | VNone => false
  | VStr s => negb (String.eqb s "")
  | VInt z => negb (Z.eqb z 0)
  | VDatetime _ => true
  end.

(** Reading a value where the annotations of the source say [str]. *)
Definition as_str (v : value) : result string :=
  match v with
  | VStr s => Ok s
  | _ => Err TypeError
  end.

(** Reading a value where the annotations say [str | None]. *)
Definition as_opt_str (v : value) : result (option string) :=
  match v with
  | VNone => Ok None
  | VStr s => Ok (Some s)
  | _ => Err TypeError
  end.

Definition of_opt_str (o : option string) : value :=
  match o with
  | Some s => VStr s
  | None => VNone
  end.

(** ** [datetime.isoformat] *)

(** ["%0<w>d" % n] for a non-negative [n]. *)
Definition fmt_d (w : nat) (n : N) : string :=
  let s := pretty n in
  String.concat "" (replicate (w - String.length s) "0") ++ s.

Inductive timespec := Auto | Milliseconds.

(** [_format_time]. *)
Definition format_time (hh mm ss us : N) (ts : timespec) : string :=
  let hms := fmt_d 2 hh ++ ":" ++ fmt_d 2 mm ++ ":" ++ fmt_d 2 ss in
  match ts with
  | Auto => if (us =? 0)%N then hms else hms ++ "." ++ fmt_d 6 us
  | Milliseconds => hms ++ "." ++ fmt_d 3 (us / 1000)%N
  end.

(** [_format_offset], the offset given in microseconds. *)
Definition format_offset (off : option Z) : string :=
  match off with
  | None => ""
  | Some o =>
      let sign := if (o <? 0)%Z then "-" else "+" in
      let a := Z.to_N (Z.abs o) in
      let hh := (a / 3600000000)%N in
      let r := (a mod 3600000000)%N in
      let mm := (r / 60000000)%N in
      let ss := (r mod 60000000)%N in
      let s := sign ++ fmt_d 2 hh ++ ":" ++ fmt_d 2 mm in
      if (ss =? 0)%N then s
      else
        let s := s ++ ":" ++ fmt_d 2 (ss / 1000000)%N in
        if (ss mod 1000000 =? 0)%N then s
        else s ++ "." ++ fmt_d 6 (ss mod 1000000)%N
  end.

Definition isoformat (ts : timespec) (d : datetime) : string :=
  fmt_d 4 (dt_year d) ++ "-" ++ fmt_d 2 (dt_month d) ++ "-" ++
  fmt_d 2 (dt_day d) ++ "T" ++
  format_time (dt_hour d) (dt_minute d) (dt_second d) (dt_microsecond d) ts ++
  format_offset (dt_utcoffset d).

(** [v.isoformat()] on a dictionary value: only a datetime has the method. *)
Definition value_isoformat (v : value) : result value :=
  match v with
  | VDatetime d => Ok (VStr (isoformat Auto d))
  | _ => Err AttributeError
  end.

(** ** Constants *)

Definition LAST_SCANNED : string := "last_scanned".

(** Modelled from the spec: the constants that [__init__.py] imports from
    [const.py] and [homeassistant.const], named after the fields of the
    spec's record and of its [tag_scanned] event. *)
Definition TAG_ID : string := "tag_id".
Definition CONF_NAME : string := "name".
Definition DEVICE_ID : string := "device_id".
Definition DOMAIN : string := "tag".
Definition EVENT_TAG_SCANNED : string := "tag_scanned".

(** [collection.CHANGE_ADDED], [CHANGE_UPDATED] and [CHANGE_REMOVED]. *)
Inductive change_type := CHANGE_ADDED | CHANGE_UPDATED | CHANGE_REMOVED.

(** ** voluptuous schemas *)

(** A validator returns the validated value or raises [Invalid]. *)
Definition validator := value → result value.

(** A type used as a schema: [isinstance(v, str)]. *)
Definition vol_str : validator := λ v,
  match v with
  | VStr _ => Ok v
  | _ => Err Invalid
  end.

(** [vol.Length(min=n)]. *)
Definition vol_Length (min : nat) : validator := λ v,
  match v with
  | VStr s => if (String.length s <? min)%nat then Err Invalid else Ok v
  | _ => Err Invalid
  end.

(** [vol.All(v1, ..., vn)]: each validator is fed the output of the one
    before it. *)
Fixpoint vol_All (vs : list validator) : validator := λ v,
  match vs with
  | [] => Ok v
  | f :: vs' => v' ← f v; vol_All vs' v'
  end.

(** A mapping schema all of whose keys are [vol.Optional(<str>)]. *)
Definition fields := list (string * validator).

Fixpoint field_validator (fs : fields) (k : string) : option validator :=
  match fs with
  | [] => None
  | (k', f) :: fs' => if String.eqb k' k then Some f else field_validator fs' k
  end.

(** One item of the data: a key the schema does not list is an extra key,
    which the default [PREVENT_EXTRA] refuses. *)
Definition validate_item (fs : fields) (k : string) (v : value) : result value :=
  match field_validator fs k with
  | Some f => f v
  | None => Err Invalid
  end.

(** [vol.Schema(fs)(data)]: every item is validated; the output holds the
    validated value of each key of the data. *)
Definition vol_Schema (fs : fields) (data : dict) : result dict :=
  if decide (map_Forall (λ k v, is_ok (validate_item fs k v) = true) data)
  then Ok (map_imap (λ k v, ok_value (validate_item fs k v)) data)
  else Err Invalid.

(** ** The entity *)

Record TagEntity := mk_TagEntity {
  entity_id : string;
  _attr_name : string;
  _tag_id : string;
  _last_device_id : option string;
  _last_scanned : string;
  _attr_unique_id : string
}.

(** What an entity hands to the state machine when it writes its state. *)
Record publication := mk_publication {
  pub_entity_id : string;
  pub_state : option string;
  pub_attributes : dict
}.

(** The listener's side of the component: the [entities] dictionary of
    [async_setup], the states of [hass.states] and the log of the state
    writes, oldest first. *)
Record projector := mk_projector {
  entities : gmap string TagEntity;
  states : gmap string publication;
  published : list publication
}.

Definition projector_empty : projector := mk_projector ∅ ∅ [].

(** The calls [async_scan_tag] makes on the event bus and on the collection. *)
Inductive action :=
  | Fire (event_type : string) (event_data : dict)
  | UpdateItem (item_id : string) (updates : dict)
  | CreateItem (data : dict).

(** A change the collection reports to its listeners. *)
Record notification := mk_notification {
  n_change_type : change_type;
  n_item_id : string;
  n_item : dict
}.

(** A request to the collection. *)
Inductive request :=
  | ReqCreate (uuid : string) (data : dict)
  | ReqUpdate (item_id : string) (updates : dict)
  | ReqDelete (item_id : string).

(** What the component reads and writes of the running system:
    [hass.config.components], the [data] of the collection under
    [hass.data[DOMAIN][TAGS]], the events fired on [hass.bus], oldest first,
    and the listener's side. *)
Record hass := mk_hass {
  components : gset string;
  helper_data : gmap string dict;
  bus : list (string * dict);
  proj : projector
}.

(** ** Instances of the helpers the module imports, for evaluation *)

Definition dt_sample : datetime :=
  mk_datetime 2024 1 2 3 4 5 678901 (Some 0%Z).

Definition dt_sample2 : datetime :=
  mk_datetime 2024 1 2 3 4 6 0 (Some 0%Z).

Definition cv_string_sample (v : value) : option string :=
  match v with
  | VStr s => Some s
  | VInt z => Some (pretty z)
  | _ => None
  end.

Definition parse_datetime_sample (s : string) : option datetime :=
  if String.eqb s "2024-01-02T03:04:05.678901+00:00" then Some dt_sample
  else if String.eqb s "2024-01-02T03:04:06+00:00" then Some dt_sample2
  else None.

Definition cv_datetime_sample (v : value) : option datetime :=
  match v with
  | VDatetime d => Some d
  | VStr s => parse_datetime_sample s
  | _ => None
  end.

Definition slugify_sample (s : string) : string :=
  if String.eqb s "Tag" then "tag" else s.

(** The parser raises on a well-formed date that does not exist. *)
Definition parse_datetime_raises_sample (s : string) : bool :=
  String.eqb s "2024-02-30T10:00:00".

Definition item_sample : dict :=
  {[ TAG_ID := VStr "tagA"; CONF_NAME := VStr "Kitchen";
     DEVICE_ID := VStr "deviceX" ]}.

Definition patch_sample : dict :=
  {[ CONF_NAME := VStr "Hall"; LAST_SCANNED := VDatetime dt_sample ]}.

Definition patch_empty_name : dict := {[ CONF_NAME := VStr "" ]}.

Definition patch_with_id : dict := {[ TAG_ID := VStr "tagB" ]}.

Definition patch_device : dict := {[ DEVICE_ID := VStr "deviceY" ]}.

Definition records_sample : gmap string dict := {[ "tagA" := item_sample ]}.

Definition payload_no_id : dict := {[ CONF_NAME := VStr "Kitchen" ]}.

Definition payload_taken : dict :=
  {[ TAG_ID := VStr "tagA"; CONF_NAME := VStr "Hall" ]}.

Definition payload_scan : dict :=
  {[ TAG_ID := VStr "tagB"; LAST_SCANNED := VDatetime dt_sample;
     DEVICE_ID := VStr "" ]}.

Definition patch_scan : dict :=
  {[ LAST_SCANNED := VDatetime dt_sample2; DEVICE_ID := VStr "deviceY" ]}.

Definition entity_sample : TagEntity :=
  mk_TagEntity "tag.tag" "Tag" "tagA" (Some "deviceX")
               "2024-01-02T03:04:05.678901+00:00" "tagA".

Definition entity_unscanned : TagEntity :=
  mk_TagEntity "tag.tag" "Tag" "tagC" None "" "tagC".

Definition entity_impossible_date : TagEntity :=
  mk_TagEntity "tag.tag" "Tag" "tagD" None "2024-02-30T10:00:00" "tagD".

Definition projector_sample : projector :=
  mk_projector {[ "tagA" := entity_sample ]} ∅ [].

Definition record_rescanned : dict :=
  {[ TAG_ID := VStr "tagA";
     LAST_SCANNED := VStr "2024-01-02T03:04:06+00:00";
     DEVICE_ID := VStr "deviceY" ]}.

Definition record_a : dict := {[ TAG_ID := VStr "tagA" ]}.
Definition record_b : dict := {[ TAG_ID := VStr "tagB" ]}.

Definition hass_sample : hass := mk_hass {[ DOMAIN ]} ∅ [] projector_empty.

Definition hass_not_set_up : hass := mk_hass ∅ ∅ [] projector_empty.

Definition item_updated : dict :=
  {[ TAG_ID := VStr "tagA"; CONF_NAME := VStr "Hall";
     DEVICE_ID := VStr "deviceX";
     LAST_SCANNED := VStr "2024-01-02T03:04:05.678901+00:00" ]}.

Definition item_updated_twice : dict :=
  {[ TAG_ID := VStr "tagA"; CONF_NAME := VStr "Hall";
     DEVICE_ID := VStr "deviceY";
     LAST_SCANNED := VStr "2024-01-02T03:04:05.678901+00:00" ]}.

Definition record_scanned_b : dict :=
  {[ TAG_ID := VStr "tagB";
     LAST_SCANNED := VStr "2024-01-02T03:04:05.678901+00:00";
     DEVICE_ID := VStr "" ]}.

Definition record_scanned_b_again : dict :=
  {[ TAG_ID := VStr "tagB";
     LAST_SCANNED := VStr "2024-01-02T03:04:05.678901+00:00";
     DEVICE_ID := VStr "deviceY" ]}.

Definition payload_empty_id : dict := {[ TAG_ID := VStr "" ]}.

Definition payload_taken_empty_name : dict :=
  {[ TAG_ID := VStr "tagA"; CONF_NAME := VStr "" ]}.

Definition records_empty_key : gmap string dict :=
  {[ "" := ({[ TAG_ID := VStr "" ]} : dict) ]}.

Definition record_uuid : dict := {[ TAG_ID := VStr "uuid-1" ]}.

Section Tag.

(** The helpers of the repository that the module calls and whose code lies
    outside it: [cv.string], [cv.datetime], [dt_util.parse_datetime],
    [homeassistant.util.slugify] and the constant [const.DEFAULT_NAME].
    A validator that raises [vol.Invalid] returns [None]. *)
Variable cv_string : value → option string.
Variable cv_datetime : value → option datetime.
Variable parse_datetime : string → option datetime.
Variable slugify : string → string.
Variable DEFAULT_NAME : string.

(** [dt_util.parse_datetime] either returns, a datetime or [None] for a
    string that is not well formed, or raises [ValueError], for a string
    that is well formed and is no valid datetime:
    [parse_datetime_raises] tells on which strings it raises,
    [parse_datetime] what it returns on the others. *)
Variable parse_datetime_raises : string → bool.

Definition dt_parse_datetime (dt_str : string) : result (option datetime) :=
  if parse_datetime_raises dt_str then Err ValueError
  else Ok (parse_datetime dt_str).

Definition cv_string_v : validator := λ v,
  match cv_string v with
  | Some s => Ok (VStr s)
  | None => Err Invalid
  end.

Definition cv_datetime_v : validator := λ v,
  match cv_datetime v with
  | Some d => Ok (VDatetime d)
  | None => Err Invalid
  end.

Definition CREATE_FIELDS : fields :=
  [ (TAG_ID, cv_string_v);
    (CONF_NAME, vol_All [vol_str; vol_Length 1]);
    ("description", cv_string_v);
    (LAST_SCANNED, cv_datetime_v);
    (DEVICE_ID, cv_string_v) ].

Definition UPDATE_FIELDS : fields :=
  [ (CONF_NAME, vol_All [vol_str; vol_Length 1]);
    ("description", cv_string_v);
    (LAST_SCANNED, cv_datetime_v);
    (DEVICE_ID, cv_string_v) ].

Definition CREATE_SCHEMA : dict → result dict := vol_Schema CREATE_FIELDS.
Definition UPDATE_SCHEMA : dict → result dict := vol_Schema UPDATE_FIELDS.

(** *** TagIDManager *)

(** Modelled from the spec: [IDManager.has_id] of [helpers/collection.py],
    the existence check against the live map. *)
Definition has_id (records : gmap string dict) (item_id : string) : bool :=
  bool_decide (is_Some (records !! item_id)).

Definition generate_id (records : gmap string dict) (suggestion : string)
  : result string :=
  if has_id records suggestion then Err (TagIDExistsError suggestion)
  else Ok suggestion.

(** *** TagStorageCollection *)

(** [uuid4] is the token [str(uuid.uuid4())] would draw. *)
Definition _process_create_data (uuid4 : string) (data : dict) : result dict :=
  data ← CREATE_SCHEMA data;
  tag_id ← getitem data TAG_ID;
  let data := if truthy tag_id then data else <[TAG_ID := VStr uuid4]> data in
  match data !! LAST_SCANNED with
  | Some last_scanned =>
      s ← value_isoformat last_scanned;
      Ok (<[LAST_SCANNED := s]> data)
  | None => Ok data
  end.

Definition _get_suggested_id (info : dict) : result string :=
  v ← getitem info TAG_ID;
  as_str v.

(** [{**item, **validated}] is [validated ∪ item]: the union of maps
    prefers its left operand. *)
Definition _update_data (item update_data : dict) : result dict :=
  validated ← UPDATE_SCHEMA update_data;
  let data := validated ∪ item in
  match update_data !! LAST_SCANNED with
  | Some _ =>
      last_scanned ← getitem data LAST_SCANNED;
      s ← value_isoformat last_scanned;
      Ok (<[LAST_SCANNED := s]> data)
  | None => Ok data
  end.

(** Modelled from the spec: [async_create_item], [async_update_item] and
    [async_delete_item] of [helpers/collection.py] (the spec's [create],
    [update] and [delete] of the keyed collection). Each returns the map
    after the call and either the change it notifies or the error it
    raises; persistence is outside the model. *)
Definition async_create_item (uuid4 : string) (data : dict)
    (records : gmap string dict) : gmap string dict * result notification :=
  match
    (validated ← _process_create_data uuid4 data;
     suggestion ← _get_suggested_id validated;
     item_id ← generate_id records suggestion;
     Ok (item_id, validated))
  with
  | Ok (item_id, item) =>
      (<[item_id := item]> records,
       Ok (mk_notification CHANGE_ADDED item_id item))
  | Err e => (records, Err e)
  end.

Definition async_update_item (item_id : string) (updates : dict)
    (records : gmap string dict) : gmap string dict * result notification :=
  match records !! item_id with
  | None => (records, Err (ItemNotFound item_id))
  | Some current =>
      match _update_data current updates with
      | Ok updated =>
          (<[item_id := updated]> records,
           Ok (mk_notification CHANGE_UPDATED item_id updated))
      | Err e => (records, Err e)
      end
  end.

Definition async_delete_item (item_id : string)
    (records : gmap string dict) : gmap string dict * result notification :=
  match records !! item_id with
  | None => (records, Err (ItemNotFound item_id))
  | Some item =>
      (delete item_id records,
       Ok (mk_notification CHANGE_REMOVED item_id item))
  end.

Definition serve (r : request) (records : gmap string dict)
  : gmap string dict * result notification :=
  match r with
  | ReqCreate uuid4 data => async_create_item uuid4 data records
  | ReqUpdate item_id updates => async_update_item item_id updates records
  | ReqDelete item_id => async_delete_item item_id records
  end.

(** The map after a sequence of requests, failed ones included. *)
Definition serve_all (rs : list request) (records : gmap string dict)
  : gmap string dict :=
  fold_left (λ m r, fst (serve r m)) rs records.

(** A record and the patches applied to it by successive updates: the
    records after each update, or the first error. *)
Fixpoint update_all (item : dict) (patches : list dict) : result (list dict) :=
  match patches with
  | [] => Ok []
  | p :: ps =>
      item' ← _update_data item p;
      rest ← update_all item' ps;
      Ok (item' :: rest)
  end.

(** *** TagEntity *)

Definition TagEntity_init (name tag_id last_scanned : string)
    (device_id : option string) : TagEntity :=
  {| entity_id := "tag." ++ slugify name;
     _attr_name := name;
     _tag_id := tag_id;
     _last_device_id := device_id;
     _last_scanned := last_scanned;
     _attr_unique_id := tag_id |}.

(** The property has no handler: an exception of the parser leaves it. *)
Definition state (self : TagEntity) : result (option string) :=
  last_scanned ← dt_parse_datetime (_last_scanned self);
  match last_scanned with
  | None => Ok None
  | Some last_scanned => Ok (Some (isoformat Milliseconds last_scanned))
  end.

(** The state as the value the parser returns gives it: what [state]
    returns wherever the parser does not raise. *)
Definition state_value (self : TagEntity) : option string :=
  match parse_datetime (_last_scanned self) with
  | None => None
  | Some last_scanned => Some (isoformat Milliseconds last_scanned)
  end.

Definition extra_state_attributes (self : TagEntity) : dict :=
  {[ TAG_ID := VStr (_tag_id self);
     DEVICE_ID := of_opt_str (_last_device_id self) ]}.

(** Modelled from the spec: [Entity.async_write_ha_state] of
    [helpers/entity.py], the publication of
    [(entity_id, state, attributes)] to the state sink. The state it
    hands over is [state_value]: the strings the listener caches are
    outputs of [isoformat], on which the parser returns. *)
Definition async_write_ha_state (self : TagEntity) (p : projector) : projector :=
  let pub := mk_publication (entity_id self) (state_value self)
                            (extra_state_attributes self) in
  {| entities := entities p;
     states := <[entity_id self := pub]> (states p);
     published := published p ++ [pub] |}.

Definition async_add_initial_state (self : TagEntity) (p : projector)
  : projector :=
  async_write_ha_state self p.

(** The entity is an object held by the [entities] dictionary under its tag
    id: the assignment to its attributes is an update of that entry. *)
Definition async_handle_event (key : string) (self : TagEntity)
    (device_id : option string) (last_scanned : string) (p : projector)
  : projector :=
  let self' := {| entity_id := entity_id self;
                  _attr_name := _attr_name self;
                  _tag_id := _tag_id self;
                  _last_device_id := device_id;
                  _last_scanned := last_scanned;
                  _attr_unique_id := _attr_unique_id self |} in
  async_write_ha_state self'
    {| entities := <[key := self']> (entities p);
       states := states p;
       published := published p |}.

(** The arguments [TagEntity(...)] receives from a record. *)
Definition entity_of_config (updated_config : dict) : result TagEntity :=
  name ← as_str (dict_get updated_config CONF_NAME (VStr DEFAULT_NAME));
  tag_id ← (v ← getitem updated_config TAG_ID; as_str v);
  last_scanned ← as_str (dict_get updated_config LAST_SCANNED (VStr ""));
  device_id ← as_opt_str (dict_get updated_config DEVICE_ID VNone);
  Ok (TagEntity_init name tag_id last_scanned device_id).

(** Modelled from the spec: [Entity.async_remove] and
    [hass.states.async_remove], which withdraw the entity's published
    state. *)
Definition states_async_remove (eid : string) (p : projector) : projector :=
  {| entities := entities p;
     states := delete eid (states p);
     published := published p |}.

Definition tag_change_listener (change : change_type) (item_id : string)
    (updated_config : dict) (p : projector) : result projector :=
  match change with
  | CHANGE_ADDED =>
      e ← entity_of_config updated_config;
      key ← (v ← getitem updated_config TAG_ID; as_str v);
      Ok (async_add_initial_state e
            {| entities := <[key := e]> (entities p);
               states := states p;
               published := published p |})
  | CHANGE_UPDATED =>
      key ← (v ← getitem updated_config TAG_ID; as_str v);
      e ← getitem (entities p) key;
      let new_scanned := dict_get updated_config LAST_SCANNED (VStr "") in
      if decide (VStr (_last_scanned e) = new_scanned) then Ok p
      else
        device_id ← as_opt_str (dict_get updated_config DEVICE_ID VNone);
        last_scanned ← as_str new_scanned;
        Ok (async_handle_event key e device_id last_scanned p)
  | CHANGE_REMOVED =>
      key ← (v ← getitem updated_config TAG_ID; as_str v);
      e ← getitem (entities p) key;
      let p := states_async_remove (entity_id e) p in
      let p := states_async_remove (entity_id e) p in
      let p := {| entities := delete key (entities p);
                  states := states p;
                  published := published p |} in
      Ok (states_async_remove (entity_id e) p)
  end.

(** The loop of [async_setup] over the records the collection loaded. *)
Fixpoint setup_entities (items : list dict) (p : projector) : result projector :=
  match items with
  | [] => Ok p
  | tag :: items' =>
      e ← entity_of_config tag;
      key ← (v ← getitem tag TAG_ID; as_str v);
      setup_entities items'
        (async_add_initial_state e
           {| entities := <[key := e]> (entities p);
              states := states p;
              published := published p |})
  end.

(** *** async_scan_tag *)

(** [device_id or ""]. *)
Definition or_empty (device_id : option string) : string :=
  match device_id with
  | Some s => if String.eqb s "" then "" else s
  | None => ""
  end.

(** The truth value of a dictionary: it is not empty. *)
Definition dict_truthy (d : dict) : bool := negb (bool_decide (d = ∅)).

(** [components] is [hass.config.components], [helper_data] the [data] of
    the collection under [hass.data[DOMAIN][TAGS]], [now] the value of
    [dt_util.utcnow()]. The result lists the calls made, in order. *)
Definition async_scan_tag (components : gset string)
    (helper_data : gmap string dict) (now : datetime)
    (tag_id : string) (device_id : option string) : result (list action) :=
  if decide (DOMAIN ∉ components)
  then Err (HomeAssistantError "tag component has not been set up.")
  else
    let tag_name :=
      match helper_data !! tag_id with
      | Some tag_data =>
          if dict_truthy tag_data then dict_get tag_data CONF_NAME VNone
          else VNone
      | None => VNone
      end in
    let fire :=
      Fire EVENT_TAG_SCANNED
        {[ TAG_ID := VStr tag_id;
           CONF_NAME := tag_name;
           DEVICE_ID := of_opt_str device_id ]} in
    if decide (is_Some (helper_data !! tag_id))
    then Ok [ fire;
              UpdateItem tag_id
                {[ LAST_SCANNED := VDatetime now;
                   DEVICE_ID := VStr (or_empty device_id) ]} ]
    else Ok [ fire;
              CreateItem
                {[ TAG_ID := VStr tag_id;
                   LAST_SCANNED := VDatetime now;
                   DEVICE_ID := VStr (or_empty device_id) ]} ].

(** *** The component as a whole *)

(** A request served by the collection and reported to the listener. A
    listener that raises does so after the map has changed. *)
Definition run_request (r : request) (h : hass) : hass * result unit :=
  match serve r (helper_data h) with
  | (records, Ok n) =>
      match tag_change_listener (n_change_type n) (n_item_id n) (n_item n)
                                (proj h) with
      | Ok p => (mk_hass (components h) records (bus h) p, Ok ())
      | Err e => (mk_hass (components h) records (bus h) (proj h), Err e)
      end
  | (_, Err e) => (h, Err e)
  end.

Definition run_action (uuid4 : string) (a : action) (h : hass)
  : hass * result unit :=
  match a with
  | Fire event_type event_data =>
      (mk_hass (components h) (helper_data h)
               (bus h ++ [(event_type, event_data)]) (proj h), Ok ())
  | UpdateItem item_id updates => run_request (ReqUpdate item_id updates) h
  | CreateItem data => run_request (ReqCreate uuid4 data) h
  end.

Fixpoint run_actions (uuid4 : string) (acts : list action) (h : hass)
  : hass * result unit :=
  match acts with
  | [] => (h, Ok ())
  | a :: acts' =>
      match run_action uuid4 a h with
      | (h', Ok _) => run_actions uuid4 acts' h'
      | (h', Err e) => (h', Err e)
      end
  end.

Definition scan (uuid4 : string) (now : datetime) (tag_id : string)
    (device_id : option string) (h : hass) : hass * result unit :=
  match async_scan_tag (components h) (helper_data h) now tag_id device_id with
  | Ok acts => run_actions uuid4 acts h
  | Err e => (h, Err e)
  end.

(** *** The statements' own vocabulary *)

(** The update schema in the spec's words: the value a patch item writes
    to the record, [None] when the item violates the schema (a name that
    is not a string of length at least one, a value its validator refuses,
    a field outside name, description, last_scanned and device_id). *)
Definition update_field_spec (k : string) (v : value) : option value :=
  if decide (k = "name") then
    match v with
    | VStr s => if decide (1 ≤ String.length s)%nat then Some v else None
    | _ => None
    end
  else if decide (k = "description") then VStr <$> cv_string v
  else if decide (k = "last_scanned") then
    (λ d, VStr (isoformat Auto d)) <$> cv_datetime v
  else if decide (k = "device_id") then VStr <$> cv_string v
  else None.

Definition satisfies_update_schema (patch : dict) : Prop :=
  map_Forall (λ k v, is_Some (update_field_spec k v)) patch.

(** A record whose [last_scanned], if any, is a string. *)
Definition last_scanned_is_str (item : dict) : Prop :=
  match item !! LAST_SCANNED with
  | None | Some (VStr _) => True
  | Some _ => False
  end.

(** The name the spec's event carries: the record's, absent ([None]) when
    the tag is unknown or its record has no name. *)
Definition current_name (records : gmap string dict) (tag_id : string) : value :=
  match records !! tag_id ≫= (λ item, item !! CONF_NAME) with
  | Some name => name
  | None => VNone
  end.

(** The name an entity is given: the record's, or the default name. *)
Definition name_of_config (updated_config : dict) : value :=
  match updated_config !! CONF_NAME with
  | Some name => name
  | None => VStr DEFAULT_NAME
  end.

Definition is_mutation (a : action) : bool :=
  match a with
  | Fire _ _ => false
  | UpdateItem _ _ | CreateItem _ => true
  end.

Definition publication_of (e : TagEntity) : publication :=
  mk_publication (entity_id e) (state_value e) (extra_state_attributes e).

(** A record all of whose fields are strings. *)
Definition all_strings (item : dict) : Prop :=
  map_Forall (λ _ v, ∃ s, v = VStr s) item.

(** The [entities] dictionary holds each entity under its own tag id, which
    is also its unique id, and each entity id is the slug of the entity's
    name. *)
Definition entities_keyed (p : projector) : Prop :=
  map_Forall
    (λ key e, _tag_id e = key ∧ _attr_unique_id e = key ∧
              entity_id e = "tag." ++ slugify (_attr_name e))
    (entities p).

(** Case analysis on the key tests of a schema. *)
Ltac key_cases k :=
  repeat match goal with
         | |- context [String.eqb ?a k] =>
             destruct (String.eqb_spec a k); [congruence|]
         end.

(** ** Properties *)

(** *** Schemas *)

Lemma vol_Schema_lookup fs data out k :
  vol_Schema fs data = Ok out →
  out !! k = data !! k ≫= (λ v, ok_value (validate_item fs k v)).
Proof.
  unfold vol_Schema. case_decide; [|done].
  intros [= <-]. apply map_lookup_imap.
Qed.

Lemma vol_Schema_valid fs data out k v :
  vol_Schema fs data = Ok out → data !! k = Some v →
  ∃ v', validate_item fs k v = Ok v' ∧ out !! k = Some v'.
Proof.
  intros Hs Hk. rewrite (vol_Schema_lookup _ _ _ k Hs), Hk. simpl.
  unfold vol_Schema in Hs. case_decide as Hall; [|done].
  specialize (Hall k v Hk). simpl in Hall.
  destruct (validate_item fs k v); [eauto|done].
Qed.

Lemma vol_Schema_absent fs data out k :
  vol_Schema fs data = Ok out → data !! k = None → out !! k = None.
Proof. intros Hs Hk. by rewrite (vol_Schema_lookup _ _ _ k Hs), Hk. Qed.

Lemma vol_Schema_refuses fs data k v :
  data !! k = Some v → is_ok (validate_item fs k v) = false →
  vol_Schema fs data = Err Invalid.
Proof.
  intros Hk Hv. unfold vol_Schema. case_decide as Hall; [|done].
  specialize (Hall k v Hk). simpl in Hall. congruence.
Qed.

Lemma vol_Schema_accepts fs data :
  (∀ k v, data !! k = Some v → is_ok (validate_item fs k v) = true) →
  ∃ out, vol_Schema fs data = Ok out.
Proof.
  intros Hall. unfold vol_Schema. case_decide as Hd; [eauto|].
  destruct Hd. intros k v Hk. by apply Hall.
Qed.

Lemma vol_Schema_error fs data e : vol_Schema fs data = Err e → e = Invalid.
Proof. unfold vol_Schema. case_decide; congruence. Qed.

Lemma validate_item_UPDATE k v :
  validate_item UPDATE_FIELDS k v =
  if decide (k = CONF_NAME) then vol_All [vol_str; vol_Length 1] v
  else if decide (k = "description") then cv_string_v v
  else if decide (k = LAST_SCANNED) then cv_datetime_v v
  else if decide (k = DEVICE_ID) then cv_string_v v
  else Err Invalid.
Proof.
  unfold validate_item, UPDATE_FIELDS. cbn [field_validator].
  repeat (case_decide; [subst k; reflexivity|]).
  by key_cases k.
Qed.

Lemma validate_item_CREATE k v :
  validate_item CREATE_FIELDS k v =
  if decide (k = TAG_ID) then cv_string_v v
  else validate_item UPDATE_FIELDS k v.
Proof.
  unfold validate_item, CREATE_FIELDS, UPDATE_FIELDS. cbn [field_validator].
  case_decide; [subst k; reflexivity|].
  by key_cases k.
Qed.

Lemma name_validator_spec v :
  vol_All [vol_str; vol_Length 1] v =
  match v with
  | VStr s => if decide (1 ≤ String.length s)%nat then Ok v else Err Invalid
  | _ => Err Invalid
  end.
Proof.
  destruct v as [|s| |]; try reflexivity. cbn.
  destruct s; cbn; [by case_decide; [lia|]|].
  case_decide; [done|lia].
Qed.

(** The validated value of a patch item and the value the spec's schema
    writes: they differ on [last_scanned] alone, where the record gets the
    ISO string of the validated datetime. *)
Lemma update_field_spec_validate k v :
  update_field_spec k v =
  match validate_item UPDATE_FIELDS k v with
  | Ok (VDatetime d) => Some (VStr (isoformat Auto d))
  | Ok v' => Some v'
  | Err _ => None
  end.
Proof.
  rewrite validate_item_UPDATE. unfold update_field_spec.
  change CONF_NAME with "name". change LAST_SCANNED with "last_scanned".
  change DEVICE_ID with "device_id".
  repeat case_decide; try done.
  - rewrite name_validator_spec. destruct v; try done. by case_decide.
  - unfold cv_string_v. by destruct (cv_string v).
  - unfold cv_datetime_v. by destruct (cv_datetime v).
  - unfold cv_string_v. by destruct (cv_string v).
Qed.

Lemma update_field_spec_is_ok k v :
  is_Some (update_field_spec k v) ↔ is_ok (validate_item UPDATE_FIELDS k v) = true.
Proof.
  rewrite update_field_spec_validate.
  destruct (validate_item UPDATE_FIELDS k v) as [[]|]; simpl;
    split; intros H; try done; try by eexists. all: by destruct H.
Qed.

(** The validated [last_scanned] is a datetime. *)
Lemma validate_last_scanned fs v v' :
  field_validator fs LAST_SCANNED = Some cv_datetime_v →
  validate_item fs LAST_SCANNED v = Ok v' →
  ∃ d, cv_datetime v = Some d ∧ v' = VDatetime d.
Proof.
  unfold validate_item. intros ->. unfold cv_datetime_v.
  destruct (cv_datetime v); [|done]. intros [= <-]. eauto.
Qed.

(** Outside [last_scanned] the validated value is written as it is. *)
Lemma update_field_spec_other k v v' :
  k ≠ LAST_SCANNED → validate_item UPDATE_FIELDS k v = Ok v' →
  update_field_spec k v = Some v'.
Proof.
  intros Hk Hv. rewrite update_field_spec_validate, Hv.
  destruct v'; try done.
  rewrite validate_item_UPDATE in Hv.
  repeat case_decide; try done.
  - rewrite name_validator_spec in Hv. destruct v; try done. by case_decide.
  - unfold cv_string_v in Hv. by destruct (cv_string v).
  - unfold cv_string_v in Hv. by destruct (cv_string v).
Qed.

Lemma vol_Schema_rejected fs data e :
  vol_Schema fs data = Err e →
  e = Invalid ∧ ∃ k v, data !! k = Some v ∧ is_ok (validate_item fs k v) = false.
Proof.
  unfold vol_Schema. case_decide as Hall; [done|]. intros [= <-].
  split; [done|]. apply map_not_Forall in Hall; [|apply _].
  destruct Hall as (k & v & Hk & Hv). exists k, v. split; [done|].
  by destruct (is_ok (validate_item fs k v)).
Qed.

(** *** [_update_data] *)

Lemma merged_lookup item patch validated k :
  UPDATE_SCHEMA patch = Ok validated →
  k ≠ LAST_SCANNED ∨ patch !! k = None →
  (validated ∪ item) !! k =
  match patch !! k with
  | Some v => update_field_spec k v
  | None => item !! k
  end.
Proof.
  intros Hs Hk. destruct (patch !! k) as [v|] eqn:Hp.
  - destruct Hk as [Hk|]; [|done].
    destruct (vol_Schema_valid _ _ _ _ _ Hs Hp) as (v' & Hv' & Hout).
    rewrite (update_field_spec_other _ _ _ Hk Hv').
    by apply lookup_union_Some_l.
  - rewrite lookup_union_r; [done|]. by eapply vol_Schema_absent.
Qed.

Lemma _update_data_valid item patch :
  (∀ k v, patch !! k = Some v → is_Some (update_field_spec k v)) →
  ∃ data, _update_data item patch = Ok data ∧
    ∀ k, data !! k =
         match patch !! k with
         | Some v => update_field_spec k v
         | None => item !! k
         end.
Proof.
  intros Hall.
  destruct (vol_Schema_accepts UPDATE_FIELDS patch) as [validated Hs].
  { intros k v Hk. apply update_field_spec_is_ok. eauto. }
  unfold _update_data. fold (UPDATE_SCHEMA patch) in Hs. rewrite Hs. simpl.
  destruct (patch !! LAST_SCANNED) as [ls|] eqn:Hls.
  - destruct (vol_Schema_valid _ _ _ _ _ Hs Hls) as (v' & Hv' & Hout).
    destruct (validate_last_scanned UPDATE_FIELDS _ _ eq_refl Hv') as (d & Hd & ->).
    unfold getitem. rewrite (lookup_union_Some_l _ _ _ _ Hout). simpl.
    eexists. split; [reflexivity|]. intros k.
    destruct (decide (k = LAST_SCANNED)) as [->|Hne].
    + rewrite lookup_insert_eq, Hls, update_field_spec_validate, Hv'. done.
    + rewrite lookup_insert_ne by done. apply merged_lookup; auto.
  - eexists. split; [reflexivity|]. intros k.
    apply merged_lookup; [done|].
    destruct (decide (k = LAST_SCANNED)) as [->|]; auto.
Qed.

Lemma _update_data_invalid item patch k v :
  patch !! k = Some v → update_field_spec k v = None →
  _update_data item patch = Err Invalid.
Proof.
  intros Hk Hv. unfold _update_data, UPDATE_SCHEMA.
  rewrite (vol_Schema_refuses UPDATE_FIELDS patch k v Hk); [done|].
  destruct (is_ok (validate_item UPDATE_FIELDS k v)) eqn:Hok; [|done].
  apply update_field_spec_is_ok in Hok. rewrite Hv in Hok. by destruct Hok.
Qed.

Lemma _update_data_error item patch e :
  _update_data item patch = Err e →
  e = Invalid ∧ ∃ k v, patch !! k = Some v ∧ update_field_spec k v = None.
Proof.
  intros He.
  destruct (UPDATE_SCHEMA patch) as [validated|e'] eqn:Hs.
  - destruct (_update_data_valid item patch) as (data & Hd & _); [|congruence].
    intros k v Hk. destruct (vol_Schema_valid _ _ _ _ _ Hs Hk) as (v' & Hv' & _).
    apply update_field_spec_is_ok. by rewrite Hv'.
  - destruct (vol_Schema_rejected _ _ _ Hs) as (-> & k & v & Hk & Hv).
    unfold _update_data in He. rewrite Hs in He. simpl in He.
    split; [congruence|]. exists k, v. split; [done|].
    destruct (update_field_spec k v) eqn:Hu; [|done].
    assert (is_Some (update_field_spec k v)) as Hi by (rewrite Hu; eauto).
    apply update_field_spec_is_ok in Hi. congruence.
Qed.

(** A successful update leaves alone every field the patch does not name. *)
Lemma _update_data_retains item patch data k :
  _update_data item patch = Ok data → patch !! k = None →
  data !! k = item !! k.
Proof.
  intros Hd Hk.
  destruct (_update_data_valid item patch) as (data' & Hd' & Hl).
  - intros k' v' Hk'.
    destruct (update_field_spec k' v') eqn:Hu; [eauto|].
    rewrite (_update_data_invalid item patch k' v' Hk' Hu) in Hd. done.
  - rewrite Hd in Hd'. injection Hd' as <-. by rewrite Hl, Hk.
Qed.

(** C6. For every existing record and every patch: if every item of the
    patch satisfies the update schema, [_update_data] returns a record
    that holds, under each key of the patch, the value the schema
    validated (for [last_scanned], its ISO string) and, under every other
    key, what the existing record held; if an item violates the schema (a
    name that is not a string of length at least one, a value its
    validator refuses, a key outside name, description, last_scanned and
    device_id), it raises [Invalid]. *)
Theorem update_data_merges_patch (item patch : dict) :
  (satisfies_update_schema patch →
   ∃ data, _update_data item patch = Ok data ∧
     ∀ k, data !! k =
          match patch !! k with
          | Some v => update_field_spec k v
          | None => item !! k
          end) ∧
  (∀ k v, patch !! k = Some v → update_field_spec k v = None →
          _update_data item patch = Err Invalid).
Proof.
  split.
  - intros Hall. apply _update_data_valid. intros k v Hk. by apply (Hall k v).
  - apply _update_data_invalid.
Qed.

(** The three kinds of violation the schema knows. *)
Lemma update_field_spec_None k v :
  update_field_spec k v = None ↔
  (k ∉ ["name"; "description"; "last_scanned"; "device_id"]) ∨
  (k = "name" ∧ ∀ s, v = VStr s → (String.length s < 1)%nat) ∨
  ((k = "description" ∨ k = "device_id") ∧ cv_string v = None) ∨
  (k = "last_scanned" ∧ cv_datetime v = None).
Proof.
  assert (k ∈ ["name"; "description"; "last_scanned"; "device_id"] ↔
          k = "name" ∨ k = "description" ∨ k = "last_scanned" ∨
          k = "device_id") as Hin.
  { rewrite !elem_of_cons, elem_of_nil. tauto. }
  unfold update_field_spec.
  repeat case_decide; subst; rewrite ?fmap_None.
  - destruct v as [|s| |]; try case_decide.
    all: split;
      [intros Hs;
       first [done|right; left; split; [done|]; intros s' [=]; subst; lia]|].
    all: intros [Hn|[[_ Hs]|[[[?|?] _]|[? _]]]]; try done.
    all: try (destruct Hn; apply Hin; auto; fail).
    specialize (Hs _ eq_refl). lia.
  - split; [auto 6|].
    intros [Hn|[[? _]|[[_ ?]|[? _]]]]; try done. destruct Hn; apply Hin; auto.
  - split; [auto 6|].
    intros [Hn|[[? _]|[[[?|?] _]|[_ ?]]]]; try done. destruct Hn; apply Hin; auto.
  - split; [auto 6|].
    intros [Hn|[[? _]|[[_ ?]|[? _]]]]; try done. destruct Hn; apply Hin; auto.
  - split; [|done]. intros _. left. rewrite Hin. tauto.
Qed.

(** *** The id under updates *)

Lemma update_field_spec_TAG_ID v : update_field_spec TAG_ID v = None.
Proof. reflexivity. Qed.

Lemma _update_data_refuses_id item patch :
  is_Some (patch !! TAG_ID) → _update_data item patch = Err Invalid.
Proof.
  intros [v Hv]. eapply _update_data_invalid; [exact Hv|].
  apply update_field_spec_TAG_ID.
Qed.

Lemma _update_data_keeps_id item patch data :
  _update_data item patch = Ok data → data !! TAG_ID = item !! TAG_ID.
Proof.
  intros Hd. eapply _update_data_retains; [exact Hd|].
  destruct (patch !! TAG_ID) eqn:Hp; [|done].
  rewrite _update_data_refuses_id in Hd; [done|by rewrite Hp].
Qed.

(** C7. No patch that carries an id passes the update schema, and after
    every update of a sequence of successful updates the record's id is
    the one it had at the start. *)
Theorem update_never_changes_id (item : dict) :
  (∀ patch, is_Some (patch !! TAG_ID) → _update_data item patch = Err Invalid) ∧
  (∀ patches after, update_all item patches = Ok after →
     length after = length patches ∧
     Forall (λ r, r !! TAG_ID = item !! TAG_ID) after).
Proof.
  split; [apply _update_data_refuses_id|].
  intros patches. revert item.
  induction patches as [|p ps IH]; intros item after; simpl.
  - intros [= <-]. by split.
  - destruct (_update_data item p) as [item'|] eqn:Hp; [|done]. simpl.
    destruct (update_all item' ps) as [rest|] eqn:Hrest; [|done]. simpl.
    intros [= <-]. destruct (IH item' rest Hrest) as [Hlen Hall].
    pose proof (_update_data_keeps_id _ _ _ Hp) as Hid.
    split; [simpl; by rewrite Hlen|].
    constructor; [done|].
    eapply Forall_impl; [exact Hall|]. simpl. intros r Hr. by rewrite Hr.
Qed.

(** *** [async_scan_tag] *)

Lemma or_empty_default device_id : or_empty device_id = default "" device_id.
Proof.
  destruct device_id as [s|]; simpl; [|done].
  destruct (String.eqb_spec s ""); congruence.
Qed.

Lemma dict_truthy_empty (d : dict) : dict_truthy d = false → d = ∅.
Proof.
  unfold dict_truthy. intros H. apply negb_false_iff in H.
  by apply bool_decide_eq_true in H.
Qed.

(** The name the handler reads is the record's name, if there is one. *)
Lemma scanned_name_current (records : gmap string dict) tag_id :
  match records !! tag_id with
  | Some tag_data =>
      if dict_truthy tag_data then dict_get tag_data CONF_NAME VNone else VNone
  | None => VNone
  end = current_name records tag_id.
Proof.
  unfold current_name. destruct (records !! tag_id) as [d|]; simpl; [|done].
  destruct (dict_truthy d) eqn:Hd; [done|].
  apply dict_truthy_empty in Hd. subst d. by rewrite lookup_empty.
Qed.

Lemma async_scan_tag_not_set_up components records now tag_id device_id :
  DOMAIN ∉ components →
  async_scan_tag components records now tag_id device_id =
  Err (HomeAssistantError "tag component has not been set up.").
Proof. intros H. unfold async_scan_tag. by case_decide. Qed.

(** C1. Once the component is set up, a scan of a tag id that is a key of
    the collection calls the collection's update on that id with the patch
    [{last_scanned: now, device_id: device_id or ""}]; a scan of any other
    tag id calls its create with the payload
    [{tag_id: tag_id, last_scanned: now, device_id: device_id or ""}]. *)
Theorem scan_updates_known_creates_unknown
    (components : gset string) (records : gmap string dict)
    (now : datetime) (tag_id : string) (device_id : option string) :
  DOMAIN ∈ components →
  (is_Some (records !! tag_id) →
   ∃ event_data,
     async_scan_tag components records now tag_id device_id =
     Ok [ Fire EVENT_TAG_SCANNED event_data;
          UpdateItem tag_id
            {[ LAST_SCANNED := VDatetime now;
               DEVICE_ID := VStr (default "" device_id) ]} ]) ∧
  (records !! tag_id = None →
   ∃ event_data,
     async_scan_tag components records now tag_id device_id =
     Ok [ Fire EVENT_TAG_SCANNED event_data;
          CreateItem
            {[ TAG_ID := VStr tag_id;
               LAST_SCANNED := VDatetime now;
               DEVICE_ID := VStr (default "" device_id) ]} ]).
Proof.
  intros Hset. unfold async_scan_tag.
  case_decide as Hd; [done|]. rewrite or_empty_default.
  split; intros Hk.
  - case_decide; [|done]. eexists. reflexivity.
  - case_decide as Hs; [rewrite Hk in Hs; by destruct Hs|].
    eexists. reflexivity.
Qed.

(** C9. Once the component is set up, a scan makes two calls: first it
    fires one [tag_scanned] event that carries the tag id, the device id
    as given and the name of the collection's current record for the tag
    ([None] when there is no record or the record has no name), then it
    issues the create or the update. *)
Theorem scan_fires_event_before_mutation
    (components : gset string) (records : gmap string dict)
    (now : datetime) (tag_id : string) (device_id : option string) :
  DOMAIN ∈ components →
  ∃ mutation,
    async_scan_tag components records now tag_id device_id =
    Ok [ Fire EVENT_TAG_SCANNED
           {[ TAG_ID := VStr tag_id;
              CONF_NAME := current_name records tag_id;
              DEVICE_ID := of_opt_str device_id ]};
         mutation ] ∧
    is_mutation mutation = true.
Proof.
  intros Hset. unfold async_scan_tag.
  case_decide as Hd; [done|]. rewrite scanned_name_current.
  case_decide; eexists; split; reflexivity.
Qed.

(** The shape of a state: three digits of fraction between the seconds
    and the offset. *)
Lemma string_app_assoc (a b c : string) : (a ++ b) ++ c = a ++ b ++ c.
Proof.
  induction a as [|x a IH]; [done|].
  change ((String x a ++ b) ++ c) with (String x ((a ++ b) ++ c)).
  by rewrite IH.
Qed.

Lemma fmt_d_3_length n : (n < 1000)%N → String.length (fmt_d 3 n) = 3%nat.
Proof.
  intros Hn.
  assert (forallb (λ m, Nat.eqb (String.length (fmt_d 3 (N.of_nat m))) 3)
                  (seq 0 1000) = true) as Hall by (vm_compute; reflexivity).
  rewrite forallb_forall in Hall.
  specialize (Hall (N.to_nat n)). rewrite N2Nat.id in Hall.
  apply Nat.eqb_eq, Hall, in_seq. lia.
Qed.

Lemma isoformat_milliseconds_shape d :
  (dt_microsecond d < 1000000)%N →
  ∃ seconds fraction,
    isoformat Milliseconds d =
      seconds ++ "." ++ fraction ++ format_offset (dt_utcoffset d) ∧
    fraction = fmt_d 3 (dt_microsecond d / 1000)%N ∧
    String.length fraction = 3%nat.
Proof.
  intros Hus.
  exists (fmt_d 4 (dt_year d) ++ "-" ++ fmt_d 2 (dt_month d) ++ "-" ++
          fmt_d 2 (dt_day d) ++ "T" ++ fmt_d 2 (dt_hour d) ++ ":" ++
          fmt_d 2 (dt_minute d) ++ ":" ++ fmt_d 2 (dt_second d)),
         (fmt_d 3 (dt_microsecond d / 1000)%N).
  split; [|split; [done|]].
  - unfold isoformat, format_time. by rewrite !string_app_assoc.
  - apply fmt_d_3_length. apply N.Div0.div_lt_upper_bound. lia.
Qed.

(** *** The entity's state *)

Lemma state_returned (e : TagEntity) :
  parse_datetime_raises (_last_scanned e) = false →
  state e = Ok (state_value e).
Proof.
  intros Hr. unfold state, state_value, dt_parse_datetime. rewrite Hr. simpl.
  by destruct (parse_datetime (_last_scanned e)).
Qed.

(** C5, as amended. Reading the state of an entity parses its cached
    [last_scanned]. The state is [None] exactly when the parser returns
    [None], as it does on the empty string for a parser that finds it
    ill formed; it is a string exactly when the parser returns a
    datetime, and is then that datetime formatted with
    [isoformat(timespec="milliseconds")], a fraction of exactly three
    digits standing between the seconds and the offset; and the read
    raises exactly when the parser raises, with the parser's exception. *)
Theorem state_reformats_or_raises (e : TagEntity) :
  (state e = Ok None ↔ dt_parse_datetime (_last_scanned e) = Ok None) ∧
  (∀ s, state e = Ok (Some s) ↔
        ∃ d, dt_parse_datetime (_last_scanned e) = Ok (Some d) ∧
             s = isoformat Milliseconds d) ∧
  (∀ err, state e = Err err ↔ dt_parse_datetime (_last_scanned e) = Err err) ∧
  (∀ d, dt_parse_datetime (_last_scanned e) = Ok (Some d) →
        (dt_microsecond d < 1000000)%N →
        ∃ seconds fraction,
          state e =
            Ok (Some (seconds ++ "." ++ fraction ++
                      format_offset (dt_utcoffset d))) ∧
          String.length fraction = 3%nat) ∧
  (dt_parse_datetime "" = Ok None → _last_scanned e = "" → state e = Ok None).
Proof.
  unfold state.
  destruct (dt_parse_datetime (_last_scanned e)) as [[d|]|err] eqn:Hp; simpl.
  - split; [split; intros [=]|]. split.
    { intros s. split.
      - intros [= <-]. by exists d.
      - intros (d' & [= <-] & ->). done. }
    split; [intros err; split; intros [=]|].
    split.
    + intros d' [= <-] Hus.
      destruct (isoformat_milliseconds_shape d Hus) as (s & f & -> & _ & Hf).
      by exists s, f.
    + intros Hempty Hls. rewrite Hls, Hempty in Hp. done.
  - split; [done|]. split.
    { intros s. split; [intros [=]|]. by intros (d' & [=] & _). }
    split; [intros err; split; intros [=]|].
    split; [intros d' [=]|done].
  - split; [split; intros [=]|]. split.
    { intros s. split; [intros [=]|]. by intros (d' & [=] & _). }
    split; [intros err'; split; intros [= ->]; reflexivity|].
    split; [intros d' [=]|].
    intros Hempty Hls. rewrite Hls, Hempty in Hp. done.
Qed.

(** *** The listener *)



(** *** Entity ids *)

Lemma entity_of_config_id updated_config e :
  entity_of_config updated_config = Ok e →
  ∃ name tag_id,
    name_of_config updated_config = VStr name ∧
    updated_config !! TAG_ID = Some (VStr tag_id) ∧
    _tag_id e = tag_id ∧
    entity_id e = "tag." ++ slugify name.
Proof.
  unfold entity_of_config, name_of_config, dict_get, getitem.
  destruct (updated_config !! CONF_NAME) as [[|name| |]|]; simpl; try done.
  all: destruct (updated_config !! TAG_ID) as [[|tid| |]|]; simpl; try done.
  all: destruct (as_str _); simpl; try done.
  all: destruct (as_opt_str _); simpl; try done.
  all: intros [= <-]; by eexists _, _.
Qed.

Lemma listener_added p item_id updated_config p' :
  tag_change_listener CHANGE_ADDED item_id updated_config p = Ok p' →
  ∃ e, entity_of_config updated_config = Ok e ∧
       entities p' = <[_tag_id e := e]> (entities p) ∧
       states p' = <[entity_id e := publication_of e]> (states p) ∧
       published p' = (published p ++ [publication_of e])%list.
Proof.
  unfold tag_change_listener.
  destruct (entity_of_config updated_config) as [e|] eqn:He; [|done]. simpl.
  destruct (entity_of_config_id _ _ He) as (name & tid & _ & Hid & Htid & _).
  unfold getitem. rewrite Hid. simpl. intros [= <-].
  exists e. by rewrite Htid.
Qed.

(** C10. The entity id of a record's entity is ["tag."] followed by the
    slug of the record's name, the default name when the record has none.
    Two records with the same name, or both without one, get the same
    entity id whatever their tag ids; when the listener has added both,
    each has its entity, and the state published under the shared entity
    id is the second record's. *)
Theorem entity_id_is_slug_of_name
    (cfg1 cfg2 : dict) (id1 id2 : string) (p p1 p2 : projector) :
  cfg1 !! CONF_NAME = cfg2 !! CONF_NAME →
  cfg1 !! TAG_ID ≠ cfg2 !! TAG_ID →
  tag_change_listener CHANGE_ADDED id1 cfg1 p = Ok p1 →
  tag_change_listener CHANGE_ADDED id2 cfg2 p1 = Ok p2 →
  ∃ name e1 e2,
    name_of_config cfg1 = VStr name ∧
    name_of_config cfg2 = VStr name ∧
    entity_id e1 = "tag." ++ slugify name ∧
    entity_id e2 = "tag." ++ slugify name ∧
    _tag_id e1 ≠ _tag_id e2 ∧
    entities p2 !! _tag_id e1 = Some e1 ∧
    entities p2 !! _tag_id e2 = Some e2 ∧
    states p2 !! ("tag." ++ slugify name) = Some (publication_of e2) ∧
    pub_attributes (publication_of e2) !! TAG_ID = Some (VStr (_tag_id e2)).
Proof.
  intros Hname Hids H1 H2.
  destruct (listener_added _ _ _ _ H1) as (e1 & He1 & Hent1 & Hst1 & _).
  destruct (listener_added _ _ _ _ H2) as (e2 & He2 & Hent2 & Hst2 & _).
  destruct (entity_of_config_id _ _ He1) as (n1 & t1 & Hn1 & Ht1 & Hk1 & Hid1).
  destruct (entity_of_config_id _ _ He2) as (n2 & t2 & Hn2 & Ht2 & Hk2 & Hid2).
  assert (n1 = n2) as <-.
  { unfold name_of_config in Hn1, Hn2. rewrite Hname in Hn1. congruence. }
  assert (_tag_id e1 ≠ _tag_id e2) as Hne by congruence.
  exists n1, e1, e2. repeat split; try done.
  - rewrite Hent2, Hent1, lookup_insert_ne by done. apply lookup_insert_eq.
  - rewrite Hent2. apply lookup_insert_eq.
  - rewrite Hst2, <- Hid2. apply lookup_insert_eq.
Qed.

(** *** [_process_create_data] and the id manager *)

Lemma CREATE_SCHEMA_id payload validated v :
  CREATE_SCHEMA payload = Ok validated → payload !! TAG_ID = Some v →
  ∃ s, cv_string v = Some s ∧ validated !! TAG_ID = Some (VStr s).
Proof.
  intros Hs Hv.
  destruct (vol_Schema_valid _ _ _ _ _ Hs Hv) as (v' & Hv' & Hout).
  rewrite validate_item_CREATE in Hv'. simpl in Hv'. unfold cv_string_v in Hv'.
  destruct (cv_string v) as [s|]; [|done]. injection Hv' as <-. eauto.
Qed.

Lemma CREATE_SCHEMA_last_scanned payload validated :
  CREATE_SCHEMA payload = Ok validated →
  validated !! LAST_SCANNED =
  VDatetime <$> (payload !! LAST_SCANNED ≫= cv_datetime).
Proof.
  intros Hs. destruct (payload !! LAST_SCANNED) as [v|] eqn:Hp; simpl.
  - destruct (vol_Schema_valid _ _ _ _ _ Hs Hp) as (v' & Hv' & ->).
    destruct (validate_last_scanned CREATE_FIELDS _ _ eq_refl Hv')
      as (d & -> & ->). done.
  - by eapply vol_Schema_absent.
Qed.

(** What [_process_create_data] returns for a payload that passes the
    schema with an id. *)
Lemma _process_create_data_valid uuid4 payload validated tid :
  CREATE_SCHEMA payload = Ok validated → validated !! TAG_ID = Some tid →
  ∃ data, _process_create_data uuid4 payload = Ok data ∧
    data !! TAG_ID = Some (if truthy tid then tid else VStr uuid4) ∧
    data !! LAST_SCANNED =
      (λ d, VStr (isoformat Auto d)) <$> (payload !! LAST_SCANNED ≫= cv_datetime).
Proof.
  intros Hs Htid. unfold _process_create_data, getitem.
  rewrite Hs. simpl. rewrite Htid. simpl.
  set (data := if truthy tid then validated else <[TAG_ID := VStr uuid4]> validated).
  assert (data !! LAST_SCANNED = validated !! LAST_SCANNED) as Hls.
  { subst data. destruct (truthy tid); [done|]. by rewrite lookup_insert_ne. }
  assert (data !! TAG_ID = Some (if truthy tid then tid else VStr uuid4)) as Hid.
  { subst data. destruct (truthy tid); [done|]. apply lookup_insert_eq. }
  rewrite Hls, (CREATE_SCHEMA_last_scanned _ _ Hs).
  destruct (payload !! LAST_SCANNED ≫= cv_datetime) as [d|] eqn:Hd; simpl.
  - eexists. split; [reflexivity|]. split.
    + by rewrite lookup_insert_ne.
    + apply lookup_insert_eq.
  - eexists. split; [reflexivity|]. split; [done|].
    by rewrite Hls, (CREATE_SCHEMA_last_scanned _ _ Hs), Hd.
Qed.

Lemma _process_create_data_inv uuid4 payload data :
  _process_create_data uuid4 payload = Ok data →
  ∃ validated tid,
    CREATE_SCHEMA payload = Ok validated ∧ validated !! TAG_ID = Some tid.
Proof.
  unfold _process_create_data, getitem.
  destruct (CREATE_SCHEMA payload) as [validated|]; [|done]. simpl.
  destruct (validated !! TAG_ID) as [tid|] eqn:Htid; [|done].
  intros _. by eexists _, _.
Qed.

Lemma _process_create_data_no_id uuid4 payload :
  payload !! TAG_ID = None → is_ok (CREATE_SCHEMA payload) = true →
  _process_create_data uuid4 payload = Err (KeyError TAG_ID).
Proof.
  intros Hid Hok. unfold _process_create_data, getitem.
  destruct (CREATE_SCHEMA payload) as [validated|] eqn:Hs; [|done]. simpl.
  by rewrite (vol_Schema_absent _ _ _ _ Hs Hid).
Qed.

Lemma generate_id_free records suggestion :
  records !! suggestion = None → generate_id records suggestion = Ok suggestion.
Proof.
  intros Hf. unfold generate_id, has_id.
  rewrite bool_decide_eq_false_2; [done|]. rewrite Hf. by intros [? ?].
Qed.

Lemma generate_id_taken records suggestion :
  is_Some (records !! suggestion) →
  generate_id records suggestion = Err (TagIDExistsError suggestion).
Proof.
  intros Ht. unfold generate_id, has_id. by rewrite bool_decide_eq_true_2.
Qed.

Lemma truthy_VStr s : s ≠ "" → truthy (VStr s) = true.
Proof. intros Hs. simpl. by destruct (String.eqb_spec s ""). Qed.

(** C2, at the code: a payload without an id that the create schema
    accepts makes [_process_create_data] raise [KeyError] at
    [data[TAG_ID]], so that the create fails and stores nothing. *)
Theorem create_without_id_raises_KeyError
    (uuid4 : string) (payload : dict) (records : gmap string dict) :
  payload !! TAG_ID = None →
  is_ok (CREATE_SCHEMA payload) = true →
  _process_create_data uuid4 payload = Err (KeyError TAG_ID) ∧
  async_create_item uuid4 payload records = (records, Err (KeyError TAG_ID)).
Proof.
  intros Hid Hok.
  pose proof (_process_create_data_no_id uuid4 payload Hid Hok) as He.
  split; [done|]. unfold async_create_item. by rewrite He.
Qed.

(** C3. A create whose payload passes the schema and carries an id (not
    the empty string, which the code takes for no id) that is a key of the
    collection fails with [TagIDExistsError] naming that id and leaves the
    map as it was; the id manager returns unchanged every suggestion that
    is not a key of the collection. *)
Theorem create_with_taken_id_conflicts (records : gmap string dict) :
  (∀ uuid4 payload v item_id,
     is_ok (CREATE_SCHEMA payload) = true →
     payload !! TAG_ID = Some v →
     cv_string v = Some item_id →
     item_id ≠ "" →
     is_Some (records !! item_id) →
     async_create_item uuid4 payload records =
     (records, Err (TagIDExistsError item_id))) ∧
  (∀ suggestion,
     records !! suggestion = None →
     generate_id records suggestion = Ok suggestion).
Proof.
  split; [|apply generate_id_free].
  intros uuid4 payload v item_id Hok Hv Hcv Hne Htaken.
  destruct (CREATE_SCHEMA payload) as [validated|] eqn:Hs; [|done].
  destruct (CREATE_SCHEMA_id _ _ _ Hs Hv) as (s & Hs' & Hid).
  assert (s = item_id) as -> by congruence.
  destruct (_process_create_data_valid uuid4 _ _ _ Hs Hid)
    as (data & Hd & Hdid & _).
  rewrite truthy_VStr in Hdid by done.
  unfold async_create_item, _get_suggested_id, getitem.
  rewrite Hd. simpl. rewrite Hdid. simpl.
  by rewrite generate_id_taken.
Qed.

(** *** The stored form of [last_scanned] *)

Lemma _update_data_lookup item patch data :
  _update_data item patch = Ok data →
  ∀ k, data !! k =
       match patch !! k with
       | Some v => update_field_spec k v
       | None => item !! k
       end.
Proof.
  intros Hd.
  destruct (_update_data_valid item patch) as (data' & Hd' & Hl).
  - intros k v Hk.
    destruct (update_field_spec k v) eqn:Hu; [eauto|].
    by rewrite (_update_data_invalid item patch k v Hk Hu) in Hd.
  - rewrite Hd in Hd'. by injection Hd' as <-.
Qed.

Lemma _process_create_data_last_scanned uuid4 payload data :
  _process_create_data uuid4 payload = Ok data →
  data !! LAST_SCANNED =
  (λ d, VStr (isoformat Auto d)) <$> (payload !! LAST_SCANNED ≫= cv_datetime).
Proof.
  intros Hd.
  destruct (_process_create_data_inv _ _ _ Hd) as (validated & tid & Hs & Htid).
  destruct (_process_create_data_valid uuid4 _ _ _ Hs Htid)
    as (data' & Hd' & _ & Hls).
  rewrite Hd in Hd'. by injection Hd' as <-.
Qed.

Lemma _process_create_data_is_str uuid4 payload data :
  _process_create_data uuid4 payload = Ok data → last_scanned_is_str data.
Proof.
  intros Hd. unfold last_scanned_is_str.
  rewrite (_process_create_data_last_scanned _ _ _ Hd).
  by destruct (payload !! LAST_SCANNED ≫= cv_datetime).
Qed.

Lemma _update_data_is_str item patch data :
  _update_data item patch = Ok data →
  last_scanned_is_str item → last_scanned_is_str data.
Proof.
  intros Hd Hi. unfold last_scanned_is_str.
  rewrite (_update_data_lookup _ _ _ Hd LAST_SCANNED).
  destruct (patch !! LAST_SCANNED) as [v|]; [|done].
  unfold update_field_spec. simpl. by destruct (cv_datetime v).
Qed.

Lemma async_create_item_inv uuid4 payload records records' n :
  async_create_item uuid4 payload records = (records', Ok n) →
  ∃ item_id data,
    _process_create_data uuid4 payload = Ok data ∧
    data !! TAG_ID = Some (VStr item_id) ∧
    records !! item_id = None ∧
    n = mk_notification CHANGE_ADDED item_id data ∧
    records' = <[item_id := data]> records.
Proof.
  unfold async_create_item, _get_suggested_id, getitem.
  destruct (_process_create_data uuid4 payload) as [data|]; [|done]. simpl.
  destruct (data !! TAG_ID) as [[|item_id| |]|] eqn:Hid; simpl; try done.
  unfold generate_id, has_id. case_bool_decide as Hin; simpl; [done|].
  intros [= <- <-]. exists item_id, data. repeat split; try done.
  destruct (records !! item_id) eqn:Hr; [|done]. destruct Hin. eauto.
Qed.

Lemma async_update_item_inv item_id patch records records' n :
  async_update_item item_id patch records = (records', Ok n) →
  ∃ current updated,
    records !! item_id = Some current ∧
    _update_data current patch = Ok updated ∧
    n = mk_notification CHANGE_UPDATED item_id updated ∧
    records' = <[item_id := updated]> records.
Proof.
  unfold async_update_item.
  destruct (records !! item_id) as [current|]; [|done].
  destruct (_update_data current patch) as [updated|] eqn:Hu; [|done].
  intros [= <- <-]. by exists current, updated.
Qed.

Lemma serve_preserves_is_str r (records : gmap string dict) :
  map_Forall (λ _, last_scanned_is_str) records →
  map_Forall (λ _, last_scanned_is_str) (serve r records).1.
Proof.
  intros Hinv. destruct r as [uuid4 data|item_id updates|item_id]; simpl.
  - destruct (async_create_item uuid4 data records) as [records' [n|e]] eqn:Hc.
    + destruct (async_create_item_inv _ _ _ _ _ Hc)
        as (item_id & item & Hd & _ & _ & _ & ->). simpl.
      apply map_Forall_insert_2; [|done].
      by eapply _process_create_data_is_str.
    + unfold async_create_item in Hc.
      destruct (_ ≫= _) as [[? ?]|]; [done|]. by injection Hc as <- _.
  - unfold async_update_item.
    destruct (records !! item_id) as [current|] eqn:Hcur; [|done].
    destruct (_update_data current updates) as [updated|] eqn:Hu; [|done].
    simpl. apply map_Forall_insert_2; [|done].
    eapply _update_data_is_str; [done|]. by apply (Hinv item_id).
  - unfold async_delete_item.
    destruct (records !! item_id); [|done]. simpl.
    by apply map_Forall_delete.
Qed.

Lemma serve_all_preserves_is_str rs (records : gmap string dict) :
  map_Forall (λ _, last_scanned_is_str) records →
  map_Forall (λ _, last_scanned_is_str) (serve_all rs records).
Proof.
  revert records. induction rs as [|r rs IH]; intros records Hinv; [done|].
  simpl. apply IH. by apply serve_preserves_is_str.
Qed.

(** C8. A create or an update that succeeds on a payload whose
    [last_scanned] is a datetime (which the validator returns as it is)
    stores a record whose [last_scanned] is the ISO string of that
    datetime; and whatever requests the collection serves, no record with
    a [last_scanned] that is not a string enters its map. *)
Theorem stored_last_scanned_is_iso_string :
  (∀ uuid4 payload records records' n d,
     payload !! LAST_SCANNED = Some (VDatetime d) →
     cv_datetime (VDatetime d) = Some d →
     async_create_item uuid4 payload records = (records', Ok n) →
     records' !! n_item_id n = Some (n_item n) ∧
     n_item n !! LAST_SCANNED = Some (VStr (isoformat Auto d))) ∧
  (∀ item_id patch records records' n d,
     patch !! LAST_SCANNED = Some (VDatetime d) →
     cv_datetime (VDatetime d) = Some d →
     async_update_item item_id patch records = (records', Ok n) →
     records' !! item_id = Some (n_item n) ∧
     n_item n !! LAST_SCANNED = Some (VStr (isoformat Auto d))) ∧
  (∀ requests records,
     map_Forall (λ _, last_scanned_is_str) records →
     map_Forall (λ _, last_scanned_is_str) (serve_all requests records)).
Proof.
  split; [|split].
  - intros uuid4 payload records records' n d Hp Hcv Hc.
    destruct (async_create_item_inv _ _ _ _ _ Hc)
      as (item_id & data & Hd & _ & _ & -> & ->). simpl.
    split; [apply lookup_insert_eq|].
    rewrite (_process_create_data_last_scanned _ _ _ Hd), Hp. simpl.
    by rewrite Hcv.
  - intros item_id patch records records' n d Hp Hcv Hu.
    destruct (async_update_item_inv _ _ _ _ _ Hu)
      as (current & updated & _ & Hd & -> & ->). simpl.
    split; [apply lookup_insert_eq|].
    rewrite (_update_data_lookup _ _ _ Hd LAST_SCANNED), Hp.
    unfold update_field_spec. simpl. by rewrite Hcv.
  - intros requests records. apply serve_all_preserves_is_str.
Qed.

(** ** Further properties *)

(** *** Updates *)

Lemma _update_data_satisfies item patch data :
  _update_data item patch = Ok data →
  ∀ k v, patch !! k = Some v → is_Some (update_field_spec k v).
Proof.
  intros Hd k v Hk.
  destruct (update_field_spec k v) eqn:Hu; [eauto|].
  by rewrite (_update_data_invalid item patch k v Hk Hu) in Hd.
Qed.

(** X1. The only exception [_update_data] raises is [Invalid], and it
    raises it only for a patch with an item that violates the update
    schema: the subscription and the [isoformat] call on [last_scanned]
    never fail, whatever the existing record holds. *)
Theorem update_data_raises_only_invalid (item patch : dict) (e : error) :
  _update_data item patch = Err e →
  e = Invalid ∧ ∃ k v, patch !! k = Some v ∧ update_field_spec k v = None.
Proof. apply _update_data_error. Qed.

(** X2. An update with the empty patch returns the record as it is. *)
Theorem update_data_empty_patch (item : dict) :
  _update_data item ∅ = Ok item.
Proof.
  destruct (_update_data_valid item ∅) as (data & Hd & Hl).
  { intros k v Hk. by rewrite lookup_empty in Hk. }
  rewrite Hd. f_equal. apply map_eq. intros k.
  by rewrite Hl, lookup_empty.
Qed.

(** X3. Updating a record again with the patch that produced it changes
    nothing. *)
Theorem update_data_idempotent (item patch data : dict) :
  _update_data item patch = Ok data →
  _update_data data patch = Ok data.
Proof.
  intros Hd.
  destruct (_update_data_valid data patch) as (data' & Hd' & Hl').
  { exact (_update_data_satisfies _ _ _ Hd). }
  rewrite Hd'. f_equal. apply map_eq. intros k.
  rewrite Hl', (_update_data_lookup _ _ _ Hd k).
  by destruct (patch !! k).
Qed.

(** X4. Two successive updates amount to one update with the two patches
    merged, the second patch taking precedence. *)
Theorem update_data_composes (item patch1 patch2 data1 data2 : dict) :
  _update_data item patch1 = Ok data1 →
  _update_data data1 patch2 = Ok data2 →
  _update_data item (patch2 ∪ patch1) = Ok data2.
Proof.
  intros H1 H2.
  destruct (_update_data_valid item (patch2 ∪ patch1)) as (data & Hd & Hl).
  { intros k v Hk. apply lookup_union_Some_raw in Hk as [Hk|[_ Hk]].
    - exact (_update_data_satisfies _ _ _ H2 k v Hk).
    - exact (_update_data_satisfies _ _ _ H1 k v Hk). }
  rewrite Hd. f_equal. apply map_eq. intros k.
  rewrite Hl, (_update_data_lookup _ _ _ H2 k), (_update_data_lookup _ _ _ H1 k).
  destruct (patch2 !! k) as [v2|] eqn:Hk2.
  - by rewrite (lookup_union_Some_l _ _ _ _ Hk2).
  - by rewrite (lookup_union_r _ _ _ Hk2).
Qed.

(** X5. The fields of an updated record are those of the existing record
    and those of the patch: an update removes no field. *)
Theorem update_data_fields (item patch data : dict) :
  _update_data item patch = Ok data →
  ∀ k, is_Some (data !! k) ↔ is_Some (patch !! k) ∨ is_Some (item !! k).
Proof.
  intros Hd k. rewrite (_update_data_lookup _ _ _ Hd k).
  destruct (patch !! k) as [v|] eqn:Hk.
  - split; [eauto|]. intros _. exact (_update_data_satisfies _ _ _ Hd k v Hk).
  - split; [auto|]. by intros [[? ?]|?].
Qed.

(** *** Creates *)

Lemma validate_item_shared k v :
  k ≠ TAG_ID → k ≠ LAST_SCANNED →
  ok_value (validate_item CREATE_FIELDS k v) = update_field_spec k v.
Proof.
  intros Hid Hls. rewrite validate_item_CREATE. rewrite decide_False by done.
  destruct (validate_item UPDATE_FIELDS k v) as [v'|] eqn:Hv; simpl.
  - symmetry. by apply update_field_spec_other.
  - by rewrite update_field_spec_validate, Hv.
Qed.

Lemma update_field_spec_is_str k v v' :
  update_field_spec k v = Some v' → ∃ s, v' = VStr s.
Proof.
  unfold update_field_spec. repeat case_decide.
  - destruct v; try done. case_decide; [|done]. intros [= <-]. eauto.
  - destruct (cv_string v); [|done]. intros [= <-]. eauto.
  - destruct (cv_datetime v); [|done]. intros [= <-]. eauto.
  - destruct (cv_string v); [|done]. intros [= <-]. eauto.
  - done.
Qed.

(** Every field of the data [_process_create_data] returns. *)
Lemma _process_create_data_fields uuid4 payload validated tid :
  CREATE_SCHEMA payload = Ok validated → validated !! TAG_ID = Some tid →
  ∃ data, _process_create_data uuid4 payload = Ok data ∧
    ∀ k, data !! k =
         if decide (k = TAG_ID)
         then Some (if truthy tid then tid else VStr uuid4)
         else if decide (k = LAST_SCANNED)
         then (λ d, VStr (isoformat Auto d)) <$>
                (payload !! LAST_SCANNED ≫= cv_datetime)
         else payload !! k ≫= update_field_spec k.
Proof.
  intros Hs Htid.
  destruct (_process_create_data_valid uuid4 _ _ _ Hs Htid)
    as (data & Hd & Hid & Hls).
  exists data. split; [done|]. intros k.
  case_decide as Hk; [by subst|]. case_decide as Hk'; [by subst|].
  unfold _process_create_data, getitem in Hd.
  rewrite Hs in Hd. simpl in Hd. rewrite Htid in Hd. simpl in Hd.
  assert (data !! k = validated !! k) as ->.
  { destruct (_ !! LAST_SCANNED) as [ls|] in Hd.
    - destruct (value_isoformat ls); [|done]. simpl in Hd.
      injection Hd as <-. rewrite lookup_insert_ne by done.
      destruct (truthy tid); [done|]. by rewrite lookup_insert_ne.
    - injection Hd as <-.
      destruct (truthy tid); [done|]. by rewrite lookup_insert_ne. }
  rewrite (vol_Schema_lookup _ _ _ k Hs).
  destruct (payload !! k) as [v|]; [|done]. simpl.
  by apply validate_item_shared.
Qed.

(** X6. [_process_create_data] returns exactly when the payload passes
    the create schema and has an id field; otherwise it raises [Invalid]
    (the schema refuses the payload) or [KeyError] on the id (the payload
    passes the schema and has no id), and nothing else. *)
Theorem process_create_data_succeeds_iff (uuid4 : string) (payload : dict) :
  (is_ok (_process_create_data uuid4 payload) = true ↔
   is_ok (CREATE_SCHEMA payload) = true ∧ is_Some (payload !! TAG_ID)) ∧
  (∀ e, _process_create_data uuid4 payload = Err e →
        (e = Invalid ∧ is_ok (CREATE_SCHEMA payload) = false) ∨
        (e = KeyError TAG_ID ∧ is_ok (CREATE_SCHEMA payload) = true ∧
         payload !! TAG_ID = None)).
Proof.
  destruct (CREATE_SCHEMA payload) as [validated|e'] eqn:Hs.
  - destruct (payload !! TAG_ID) as [v|] eqn:Hv.
    + destruct (CREATE_SCHEMA_id _ _ _ Hs Hv) as (s & _ & Hid).
      destruct (_process_create_data_valid uuid4 _ _ _ Hs Hid)
        as (data & -> & _). simpl. split; [|done].
      split; [eauto|done].
    + rewrite (_process_create_data_no_id uuid4 payload Hv) by (by rewrite Hs).
      simpl. split; [|intros e [= <-]; auto].
      split; [done|]. by intros [_ [? ?]].
  - pose proof (vol_Schema_error _ _ _ Hs) as ->.
    unfold _process_create_data. rewrite Hs. simpl.
    split; [|intros e [= <-]; auto].
    split; [done|]. by intros [? _].
Qed.

(** X7. For a payload that passes the schema with id [s]: the data
    returned holds the id [s], or the uuid4 token when [s] is the empty
    string; every other field but [last_scanned] holds what an update
    would write for it; and the data has the fields of the payload, no
    more and no fewer. *)
Theorem process_create_data_result
    (uuid4 : string) (payload : dict) (v : value) (s : string) :
  is_ok (CREATE_SCHEMA payload) = true →
  payload !! TAG_ID = Some v →
  cv_string v = Some s →
  ∃ data,
    _process_create_data uuid4 payload = Ok data ∧
    data !! TAG_ID = Some (VStr (if decide (s = "") then uuid4 else s)) ∧
    (∀ k, k ≠ TAG_ID → k ≠ LAST_SCANNED →
          data !! k = payload !! k ≫= update_field_spec k) ∧
    (∀ k, is_Some (data !! k) ↔ is_Some (payload !! k)).
Proof.
  intros Hok Hv Hcv.
  destruct (CREATE_SCHEMA payload) as [validated|] eqn:Hs; [|done].
  destruct (CREATE_SCHEMA_id _ _ _ Hs Hv) as (s' & Hs' & Hid).
  assert (s' = s) as -> by congruence.
  destruct (_process_create_data_fields uuid4 _ _ _ Hs Hid) as (data & Hd & Hl).
  exists data. split; [done|]. split; [|split].
  - rewrite Hl, decide_True by done. simpl.
    destruct (String.eqb_spec s ""); by case_decide.
  - intros k Hk Hk'. by rewrite Hl, !decide_False.
  - intros k. rewrite Hl. case_decide as Hk; [subst; rewrite Hv|].
    { split; eauto. }
    case_decide as Hk'.
    + subst. destruct (payload !! LAST_SCANNED) as [ls|] eqn:Hp; simpl.
      * destruct (vol_Schema_valid _ _ _ _ _ Hs Hp) as (w & Hw & _).
        destruct (validate_last_scanned CREATE_FIELDS _ _ eq_refl Hw)
          as (d & -> & _).
        split; eauto.
      * split; by intros [? ?].
    + destruct (payload !! k) as [w|] eqn:Hp; simpl; [|split; by intros [? ?]].
      destruct (vol_Schema_valid _ _ _ _ _ Hs Hp) as (w' & Hw' & _).
      pose proof (validate_item_shared k w Hk Hk') as Hsh.
      rewrite Hw' in Hsh. simpl in Hsh. rewrite <- Hsh. split; eauto.
Qed.

Lemma _process_create_data_all_strings uuid4 payload data :
  _process_create_data uuid4 payload = Ok data → all_strings data.
Proof.
  intros Hd.
  destruct (_process_create_data_inv _ _ _ Hd) as (validated & tid & Hs & Htid).
  destruct (_process_create_data_fields uuid4 _ _ _ Hs Htid)
    as (data' & Hd' & Hl).
  rewrite Hd in Hd'. injection Hd' as <-.
  intros k w Hw. rewrite Hl in Hw.
  case_decide; [|case_decide].
  - injection Hw as <-. destruct (truthy tid); [|eauto].
    pose proof (vol_Schema_lookup _ _ _ TAG_ID Hs) as Hl'.
    rewrite Htid in Hl'. destruct (payload !! TAG_ID) as [v|] eqn:Hv; [|done].
    destruct (CREATE_SCHEMA_id _ _ _ Hs Hv) as (s & _ & Hid).
    rewrite Htid in Hid. injection Hid as ->. eauto.
  - destruct (payload !! LAST_SCANNED ≫= cv_datetime); [|done].
    injection Hw as <-. eauto.
  - destruct (payload !! k) as [v|]; [|done]. simpl in Hw.
    by eapply update_field_spec_is_str.
Qed.

Lemma _update_data_all_strings item patch data :
  all_strings item → _update_data item patch = Ok data → all_strings data.
Proof.
  intros Hitem Hd k w Hw.
  rewrite (_update_data_lookup _ _ _ Hd k) in Hw.
  destruct (patch !! k) as [v|].
  - by eapply update_field_spec_is_str.
  - by apply (Hitem k w).
Qed.

(** X8. Every field of the data [_process_create_data] returns is a
    string, and [_update_data] applied to a record of strings returns a
    record of strings. *)
Theorem stored_records_hold_strings :
  (∀ uuid4 payload data,
     _process_create_data uuid4 payload = Ok data → all_strings data) ∧
  (∀ item patch data,
     all_strings item → _update_data item patch = Ok data →
     all_strings data).
Proof.
  split.
  - apply _process_create_data_all_strings.
  - apply _update_data_all_strings.
Qed.

(** X9. The data [_process_create_data] returns always has an id for
    [_get_suggested_id] to read, and that id is not the empty string when
    the uuid4 token is not. *)
Theorem suggested_id_is_not_empty (uuid4 : string) (payload data : dict) :
  uuid4 ≠ "" →
  _process_create_data uuid4 payload = Ok data →
  ∃ s, _get_suggested_id data = Ok s ∧ s ≠ "" ∧
       data !! TAG_ID = Some (VStr s).
Proof.
  intros Hu Hd.
  destruct (_process_create_data_inv _ _ _ Hd) as (validated & tid & Hs & Htid).
  destruct (_process_create_data_valid uuid4 _ _ _ Hs Htid)
    as (data' & Hd' & Hid & _).
  rewrite Hd in Hd'. injection Hd' as <-.
  unfold _get_suggested_id, getitem. rewrite Hid. simpl.
  destruct (truthy tid) eqn:Ht.
  - pose proof (vol_Schema_lookup _ _ _ TAG_ID Hs) as Hl.
    rewrite Htid in Hl. destruct (payload !! TAG_ID) as [v|] eqn:Hv; [|done].
    destruct (CREATE_SCHEMA_id _ _ _ Hs Hv) as (s & _ & Hid').
    rewrite Htid in Hid'. injection Hid' as ->.
    exists s. repeat split. simpl in Ht.
    intros ->. done.
  - exists uuid4. by repeat split.
Qed.

Lemma vol_Schema_is_ok fs data :
  is_ok (vol_Schema fs data) = true ↔
  ∀ k v, data !! k = Some v → is_ok (validate_item fs k v) = true.
Proof.
  split.
  - intros Hok k v Hk.
    destruct (vol_Schema fs data) as [out|] eqn:Hs; [|done].
    destruct (vol_Schema_valid _ _ _ _ _ Hs Hk) as (v' & -> & _). done.
  - intros Hall. by destruct (vol_Schema_accepts fs data Hall) as [out ->].
Qed.

(** X10. The create schema is the update schema with the id added: a
    payload passes it exactly when the payload without its id passes the
    update schema and [cv.string] accepts the id, if there is one. *)
Theorem create_schema_is_update_schema_plus_id (payload : dict) :
  is_ok (CREATE_SCHEMA payload) = true ↔
  is_ok (UPDATE_SCHEMA (delete TAG_ID payload)) = true ∧
  (∀ v, payload !! TAG_ID = Some v → is_Some (cv_string v)).
Proof.
  unfold CREATE_SCHEMA, UPDATE_SCHEMA. rewrite !vol_Schema_is_ok. split.
  - intros Hall. split.
    + intros k v [Hne Hk]%lookup_delete_Some.
      specialize (Hall k v Hk). rewrite validate_item_CREATE in Hall.
      by rewrite decide_False in Hall.
    + intros v Hv. specialize (Hall _ _ Hv).
      rewrite validate_item_CREATE, decide_True in Hall by done.
      unfold cv_string_v in Hall. destruct (cv_string v); [eauto|done].
  - intros [Hupd Hid] k v Hk. rewrite validate_item_CREATE.
    case_decide as Hd.
    + subst k. destruct (Hid v Hk) as [s Hs].
      unfold cv_string_v. by rewrite Hs.
    + apply Hupd. by apply lookup_delete_Some.
Qed.

(** *** What a scan hands to the collection *)

Lemma lookup_two (a b : string) (x y : value) (k : string) :
  ({[ a := x; b := y ]} : dict) !! k =
  if decide (k = a) then Some x
  else if decide (k = b) then Some y else None.
Proof.
  rewrite lookup_insert. case_decide; [subst; by rewrite decide_True|].
  rewrite decide_False by done.
  rewrite lookup_singleton. case_decide; [subst; by rewrite decide_True|].
  by rewrite decide_False.
Qed.

Lemma lookup_three (a b c : string) (x y z : value) (k : string) :
  ({[ a := x; b := y; c := z ]} : dict) !! k =
  if decide (k = a) then Some x
  else if decide (k = b) then Some y
  else if decide (k = c) then Some z else None.
Proof.
  rewrite lookup_insert. case_decide; [subst; by rewrite decide_True|].
  rewrite decide_False by done. apply lookup_two.
Qed.

(** X11. With validators that return a string and a datetime as they
    are, the payload a scan of an unknown tag hands to create always
    passes [_process_create_data], which returns the tag id (the uuid4
    token for the empty tag id), the ISO string of the scan time and the
    device id or the empty string. *)
Theorem scan_create_payload_is_accepted
    (components : gset string) (records : gmap string dict)
    (now : datetime) (tag_id : string) (device_id : option string)
    (uuid4 : string) :
  (∀ s, cv_string (VStr s) = Some s) →
  (∀ d, cv_datetime (VDatetime d) = Some d) →
  DOMAIN ∈ components →
  records !! tag_id = None →
  ∃ event_data payload,
    async_scan_tag components records now tag_id device_id =
      Ok [ Fire EVENT_TAG_SCANNED event_data; CreateItem payload ] ∧
    _process_create_data uuid4 payload =
      Ok {[ TAG_ID := VStr (if decide (tag_id = "") then uuid4 else tag_id);
            LAST_SCANNED := VStr (isoformat Auto now);
            DEVICE_ID := VStr (default "" device_id) ]}.
Proof.
  intros Hstr Hdt Hset Hnew. unfold async_scan_tag.
  case_decide as Hd; [done|].
  case_decide as Hk; [rewrite Hnew in Hk; by destruct Hk|].
  rewrite or_empty_default.
  eexists _, _. split; [reflexivity|].
  set (payload := ({[ TAG_ID := VStr tag_id; LAST_SCANNED := VDatetime now;
                      DEVICE_ID := VStr (default "" device_id) ]} : dict)).
  destruct (vol_Schema_accepts CREATE_FIELDS payload) as [validated Hs].
  { intros k v Hv. subst payload. rewrite lookup_three in Hv.
    repeat case_decide; try done; subst; injection Hv as <-.
    - change (is_ok (cv_string_v (VStr tag_id)) = true).
      unfold cv_string_v. by rewrite Hstr.
    - change (is_ok (cv_datetime_v (VDatetime now)) = true).
      unfold cv_datetime_v. by rewrite Hdt.
    - change (is_ok (cv_string_v (VStr (default "" device_id))) = true).
      unfold cv_string_v. by rewrite Hstr. }
  fold (CREATE_SCHEMA payload) in Hs.
  assert (payload !! TAG_ID = Some (VStr tag_id)) as Hid by done.
  destruct (CREATE_SCHEMA_id _ _ _ Hs Hid) as (s & Hcv & Hvid).
  rewrite Hstr in Hcv. injection Hcv as <-.
  destruct (_process_create_data_fields uuid4 _ _ _ Hs Hvid)
    as (data & -> & Hl).
  f_equal. apply map_eq. intros k. rewrite Hl, lookup_three.
  subst payload. rewrite lookup_three. clear Hs Hid Hvid Hl.
  case_decide; [|case_decide; [|case_decide]]; subst.
  - simpl. f_equal. case_decide as He.
    + subst tag_id. reflexivity.
    + apply String.eqb_neq in He. rewrite He. reflexivity.
  - simpl. rewrite Hdt. reflexivity.
  - simpl. change (VStr <$> cv_string (VStr (default "" device_id)) =
                   Some (VStr (default "" device_id))).
    rewrite Hstr. reflexivity.
  - rewrite lookup_three, !decide_False by assumption. reflexivity.
Qed.

(** X12. With the same validators, the patch a scan of a known tag hands
    to update always passes [_update_data], which returns the record with
    [last_scanned] set to the ISO string of the scan time and [device_id]
    set to the device id or the empty string, every other field as it
    was. *)
Theorem scan_update_patch_is_accepted
    (components : gset string) (records : gmap string dict)
    (now : datetime) (tag_id : string) (device_id : option string)
    (item : dict) :
  (∀ s, cv_string (VStr s) = Some s) →
  (∀ d, cv_datetime (VDatetime d) = Some d) →
  DOMAIN ∈ components →
  records !! tag_id = Some item →
  ∃ event_data patch,
    async_scan_tag components records now tag_id device_id =
      Ok [ Fire EVENT_TAG_SCANNED event_data; UpdateItem tag_id patch ] ∧
    _update_data item patch =
      Ok (<[ LAST_SCANNED := VStr (isoformat Auto now) ]>
            (<[ DEVICE_ID := VStr (default "" device_id) ]> item)).
Proof.
  intros Hstr Hdt Hset Hknown. unfold async_scan_tag.
  case_decide as Hd; [done|].
  case_decide as Hk; [|destruct Hk; by rewrite Hknown].
  rewrite or_empty_default.
  eexists _, _. split; [reflexivity|].
  set (patch := ({[ LAST_SCANNED := VDatetime now;
                    DEVICE_ID := VStr (default "" device_id) ]} : dict)).
  assert (update_field_spec LAST_SCANNED (VDatetime now) =
          Some (VStr (isoformat Auto now))) as Hls.
  { change ((λ d, VStr (isoformat Auto d)) <$> cv_datetime (VDatetime now) =
            Some (VStr (isoformat Auto now))). by rewrite Hdt. }
  assert (update_field_spec DEVICE_ID (VStr (default "" device_id)) =
          Some (VStr (default "" device_id))) as Hdev.
  { change (VStr <$> cv_string (VStr (default "" device_id)) =
            Some (VStr (default "" device_id))). by rewrite Hstr. }
  destruct (_update_data_valid item patch) as (data & -> & Hl).
  { intros k v Hv. subst patch. rewrite lookup_two in Hv.
    repeat case_decide; try done; subst; injection Hv as <-.
    - rewrite Hls. eauto.
    - rewrite Hdev. eauto. }
  f_equal. apply map_eq. intros k. rewrite Hl.
  subst patch. rewrite lookup_two, !lookup_insert.
  case_decide; [subst; by rewrite decide_True|].
  rewrite (decide_False (P := LAST_SCANNED = k)) by done.
  case_decide; [subst; by rewrite decide_True|].
  by rewrite decide_False.
Qed.

(** *** The listener and the entities *)

Lemma entity_of_config_init updated_config e :
  entity_of_config updated_config = Ok e →
  ∃ name tag_id last_scanned device_id,
    e = TagEntity_init name tag_id last_scanned device_id ∧
    updated_config !! TAG_ID = Some (VStr tag_id) ∧
    dict_get updated_config LAST_SCANNED (VStr "") = VStr last_scanned.
Proof.
  unfold entity_of_config, getitem.
  destruct (as_str (dict_get updated_config CONF_NAME _)) as [name|]; [|done].
  simpl. destruct (updated_config !! TAG_ID) as [[|tid| |]|]; simpl; try done.
  destruct (dict_get updated_config LAST_SCANNED _) as [|ls| |]; simpl; try done.
  destruct (as_opt_str _) as [dev|]; simpl; [|done].
  intros [= <-]. by eexists _, _, _, _.
Qed.


(** What each kind of notification does to the projector. *)
Lemma listener_updated p item_id updated_config p' :
  tag_change_listener CHANGE_UPDATED item_id updated_config p = Ok p' →
  ∃ key e,
    updated_config !! TAG_ID = Some (VStr key) ∧
    entities p !! key = Some e ∧
    (p' = p ∧
     dict_get updated_config LAST_SCANNED (VStr "") = VStr (_last_scanned e) ∨
     ∃ device_id last_scanned,
       dict_get updated_config LAST_SCANNED (VStr "") = VStr last_scanned ∧
       last_scanned ≠ _last_scanned e ∧
       p' = async_handle_event key e device_id last_scanned p).
Proof.
  unfold tag_change_listener, getitem.
  destruct (updated_config !! TAG_ID) as [[|key| |]|]; simpl; try done.
  destruct (entities p !! key) as [e|] eqn:He; simpl; [|done].
  case_decide as Heq.
  - intros [= <-]. exists key, e. split; [done|]. split; [done|].
    left. by split.
  - destruct (as_opt_str _) as [dev|]; simpl; [|done].
    destruct (dict_get updated_config LAST_SCANNED _) as [|ls| |] eqn:Hls;
      simpl; try done.
    intros [= <-]. exists key, e. split; [done|]. split; [done|]. right.
    exists dev, ls. split; [done|]. split; [congruence|done].
Qed.

Lemma listener_removed p item_id updated_config p' :
  tag_change_listener CHANGE_REMOVED item_id updated_config p = Ok p' →
  ∃ key e,
    updated_config !! TAG_ID = Some (VStr key) ∧
    entities p !! key = Some e ∧
    entities p' = delete key (entities p) ∧
    states p' = delete (entity_id e) (states p) ∧
    published p' = published p.
Proof.
  unfold tag_change_listener, getitem.
  destruct (updated_config !! TAG_ID) as [[|key| |]|]; simpl; try done.
  destruct (entities p !! key) as [e|] eqn:He; simpl; [|done].
  intros [= <-]. exists key, e. simpl. by rewrite !delete_delete_eq.
Qed.

(** X13. An [updated] or [removed] notification for a record without a
    tag id, or for a tag id that has no entity, raises [KeyError]. *)
Theorem listener_unknown_tag_raises_KeyError
    (change : change_type) (item_id : string) (updated_config : dict)
    (p : projector) :
  change ≠ CHANGE_ADDED →
  (updated_config !! TAG_ID = None →
   tag_change_listener change item_id updated_config p =
   Err (KeyError TAG_ID)) ∧
  (∀ key,
     updated_config !! TAG_ID = Some (VStr key) →
     entities p !! key = None →
     tag_change_listener change item_id updated_config p =
     Err (KeyError key)).
Proof.
  intros Hc. split.
  - intros Hid. destruct change; [done| |];
      unfold tag_change_listener, getitem; by rewrite Hid.
  - intros key Hid He. destruct change; [done| |];
      unfold tag_change_listener, getitem; rewrite Hid; simpl; by rewrite He.
Qed.

(** X14. Whatever notification the listener handles, every entity stays
    filed under its own tag id, which stays its unique id, and keeps the
    entity id derived from its name. *)
Theorem listener_keeps_entities_keyed
    (change : change_type) (item_id : string) (updated_config : dict)
    (p p' : projector) :
  entities_keyed p →
  tag_change_listener change item_id updated_config p = Ok p' →
  entities_keyed p'.
Proof.
  intros Hinv Hl. unfold entities_keyed in *. destruct change.
  - destruct (listener_added _ _ _ _ Hl) as (e & He & -> & _).
    apply map_Forall_insert_2; [|done].
    destruct (entity_of_config_init _ _ He) as (n & t & l & d & -> & _).
    done.
  - destruct (listener_updated _ _ _ _ Hl)
      as (key & e & _ & He & [[-> _]|(dev & ls & _ & _ & ->)]); [done|].
    simpl. apply map_Forall_insert_2; [|done].
    by destruct (Hinv key e He) as (? & ? & ?).
  - destruct (listener_removed _ _ _ _ Hl) as (key & e & _ & _ & -> & _).
    by apply map_Forall_delete.
Qed.

(** X15. A notification for one tag leaves the entity of every other tag
    as it was. *)
Theorem listener_touches_one_entity
    (change : change_type) (item_id : string) (updated_config : dict)
    (p p' : projector) (key other : string) :
  updated_config !! TAG_ID = Some (VStr key) →
  tag_change_listener change item_id updated_config p = Ok p' →
  other ≠ key →
  entities p' !! other = entities p !! other.
Proof.
  intros Hid Hl Hne. destruct change.
  - destruct (listener_added _ _ _ _ Hl) as (e & He & -> & _).
    destruct (entity_of_config_id _ _ He) as (n & t & _ & Ht & <- & _).
    rewrite lookup_insert_ne; [done|]. congruence.
  - destruct (listener_updated _ _ _ _ Hl)
      as (k & e & Hk & _ & [[-> _]|(dev & ls & _ & _ & ->)]); [done|].
    simpl. rewrite lookup_insert_ne; [done|]. congruence.
  - destruct (listener_removed _ _ _ _ Hl) as (k & e & Hk & _ & -> & _).
    rewrite lookup_delete_ne; [done|]. congruence.
Qed.

(** X16. An [updated] notification delivered a second time does nothing:
    the entity then caches the record's [last_scanned]. *)
Theorem duplicate_update_publishes_once
    (item_id : string) (updated_config : dict) (p p1 : projector) :
  tag_change_listener CHANGE_UPDATED item_id updated_config p = Ok p1 →
  tag_change_listener CHANGE_UPDATED item_id updated_config p1 = Ok p1.
Proof.
  intros Hl.
  destruct (listener_updated _ _ _ _ Hl)
    as (key & e & Hk & He & [[-> _]|(dev & ls & Hls & _ & ->)]); [done|].
  unfold tag_change_listener, getitem. rewrite Hk. simpl.
  rewrite lookup_insert_eq. simpl. rewrite Hls.
  by rewrite decide_True.
Qed.

(** X17. Adding a tag that had no entity and removing it again leaves the
    [entities] dictionary as it was before, no state under the tag's
    entity id, and one state write in the log. *)
Theorem added_then_removed_restores_entities
    (item_id : string) (updated_config : dict) (key : string)
    (p p1 p2 : projector) :
  updated_config !! TAG_ID = Some (VStr key) →
  entities p !! key = None →
  tag_change_listener CHANGE_ADDED item_id updated_config p = Ok p1 →
  tag_change_listener CHANGE_REMOVED item_id updated_config p1 = Ok p2 →
  ∃ e,
    entity_of_config updated_config = Ok e ∧
    entities p2 = entities p ∧
    states p2 = delete (entity_id e) (states p) ∧
    published p2 = (published p ++ [publication_of e])%list.
Proof.
  intros Hid Hnone Ha Hr.
  destruct (listener_added _ _ _ _ Ha) as (e & He & Hent & Hst & Hpub).
  destruct (entity_of_config_id _ _ He) as (n & t & _ & Ht & Htid & _).
  assert (t = key) as -> by congruence.
  destruct (listener_removed _ _ _ _ Hr)
    as (k & e' & Hk & He' & Hent' & Hst' & Hpub').
  assert (k = key) as -> by congruence.
  rewrite Hent, Htid, lookup_insert_eq in He'. injection He' as <-.
  exists e. split; [done|]. split; [|split].
  - rewrite Hent', Hent, Htid. by apply delete_insert_id.
  - rewrite Hst', Hst. apply delete_insert_eq.
  - by rewrite Hpub', Hpub.
Qed.

(** X18. When two tags share a name, removing the first removes the
    state published under their common entity id although the second
    tag's entity is still there. *)
Theorem removing_one_tag_removes_shared_state
    (cfg1 cfg2 : dict) (id1 id2 id3 : string) (p p1 p2 p3 : projector) :
  cfg1 !! CONF_NAME = cfg2 !! CONF_NAME →
  cfg1 !! TAG_ID ≠ cfg2 !! TAG_ID →
  tag_change_listener CHANGE_ADDED id1 cfg1 p = Ok p1 →
  tag_change_listener CHANGE_ADDED id2 cfg2 p1 = Ok p2 →
  tag_change_listener CHANGE_REMOVED id3 cfg1 p2 = Ok p3 →
  ∃ e2,
    cfg2 !! TAG_ID = Some (VStr (_tag_id e2)) ∧
    entities p3 !! _tag_id e2 = Some e2 ∧
    states p3 !! entity_id e2 = None.
Proof.
  intros Hname Hids H1 H2 H3.
  destruct (listener_added _ _ _ _ H1) as (e1 & He1 & Hent1 & _).
  destruct (listener_added _ _ _ _ H2) as (e2 & He2 & Hent2 & _).
  destruct (entity_of_config_id _ _ He1) as (n1 & t1 & Hn1 & Ht1 & Hk1 & Hid1).
  destruct (entity_of_config_id _ _ He2) as (n2 & t2 & Hn2 & Ht2 & Hk2 & Hid2).
  assert (n1 = n2) as <-.
  { unfold name_of_config in Hn1, Hn2. rewrite Hname in Hn1. congruence. }
  assert (t1 ≠ t2) as Hne by congruence.
  destruct (listener_removed _ _ _ _ H3) as (k & e & Hk & He & Hent3 & Hst3 & _).
  assert (k = t1) as -> by congruence.
  rewrite Hent2, Hk2, lookup_insert_ne in He by congruence.
  rewrite Hent1, Hk1, lookup_insert_eq in He. injection He as <-.
  exists e2. split; [by rewrite Hk2|]. split.
  - rewrite Hent3, lookup_delete_ne by congruence.
    rewrite Hent2. apply lookup_insert_eq.
  - rewrite Hst3, Hid2, <- Hid1. apply lookup_delete_eq.
Qed.

Lemma setup_entities_keeps items : ∀ p p' key,
  setup_entities items p = Ok p' →
  is_Some (entities p !! key) → is_Some (entities p' !! key).
Proof.
  induction items as [|tag items IH]; intros p p' key; simpl.
  - by intros [= <-].
  - destruct (entity_of_config tag) as [e|]; [|done]. simpl.
    destruct (getitem tag TAG_ID ≫= _) as [k|]; [|done]. simpl.
    intros Hs Hk. eapply IH; [exact Hs|]. simpl.
    apply lookup_insert_is_Some'. auto.
Qed.

(** X19. The loop of [async_setup] builds one entity per loaded record,
    writes their states in the order of the records, and leaves an entity
    under the tag id of each. *)
Theorem setup_publishes_each_record_in_order
    (items : list dict) (p p' : projector) :
  setup_entities items p = Ok p' →
  ∃ es,
    Forall2 (λ tag e, entity_of_config tag = Ok e) items es ∧
    published p' = (published p ++ (publication_of <$> es))%list ∧
    ∀ e, e ∈ es → is_Some (entities p' !! _tag_id e).
Proof.
  revert p p'. induction items as [|tag items IH]; intros p p'; simpl.
  - intros [= <-]. exists []. split; [constructor|].
    split; [by rewrite app_nil_r|]. intros e He. by apply elem_of_nil in He.
  - destruct (entity_of_config tag) as [e|] eqn:He; [|done]. simpl.
    destruct (entity_of_config_id _ _ He) as (n & t & _ & Ht & Htid & _).
    unfold getitem. rewrite Ht. simpl. intros Hs.
    destruct (IH _ _ Hs) as (es & Hes & Hpub & Hin).
    exists (e :: es). split; [by constructor|]. split.
    + rewrite Hpub. simpl. by rewrite <- app_assoc.
    + intros e' [->|He']%elem_of_cons; [|by apply Hin].
      eapply setup_entities_keeps; [exact Hs|]. simpl.
      rewrite Htid, lookup_insert_eq. eauto.
Qed.


(** X21. Before the component is set up a scan raises
    [HomeAssistantError] and does nothing else: no event is fired and the
    collection is not called. *)
Theorem scan_before_setup_changes_nothing
    (uuid4 : string) (now : datetime) (tag_id : string)
    (device_id : option string) (h : hass) :
  DOMAIN ∉ components h →
  async_scan_tag (components h) (helper_data h) now tag_id device_id =
    Err (HomeAssistantError "tag component has not been set up.") ∧
  scan uuid4 now tag_id device_id h =
    (h, Err (HomeAssistantError "tag component has not been set up.")).
Proof.
  intros Hset. unfold scan.
  rewrite (async_scan_tag_not_set_up _ _ _ _ _ Hset). by split.
Qed.

End Tag.

(** ** Evaluation on concrete inputs *)

Example isoformat_auto_sample :
  isoformat Auto dt_sample = "2024-01-02T03:04:05.678901+00:00".
Proof. vm_compute. reflexivity. Qed.

Example isoformat_ms_sample :
  isoformat Milliseconds dt_sample = "2024-01-02T03:04:05.678+00:00".
Proof. vm_compute. reflexivity. Qed.

Example isoformat_whole_second :
  isoformat Auto dt_sample2 = "2024-01-02T03:04:06+00:00".
Proof. vm_compute. reflexivity. Qed.

Example process_create_data_empty_id :
  _process_create_data cv_string_sample cv_datetime_sample "uuid-1"
    {[ TAG_ID := VStr "" ]} = Ok {[ TAG_ID := VStr "uuid-1" ]}.
Proof. vm_compute. reflexivity. Qed.

Example process_create_data_no_id :
  _process_create_data cv_string_sample cv_datetime_sample "uuid-1" ∅ =
  Err (KeyError "tag_id").
Proof. vm_compute. reflexivity. Qed.

Example update_data_sample :
  _update_data cv_string_sample cv_datetime_sample item_sample patch_sample =
  Ok {[ TAG_ID := VStr "tagA"; CONF_NAME := VStr "Hall";
        DEVICE_ID := VStr "deviceX";
        LAST_SCANNED := VStr "2024-01-02T03:04:05.678901+00:00" ]}.
Proof. vm_compute. reflexivity. Qed.

(** The first scan of a tag creates its record and its entity. *)
Example first_scan_creates :
  let h := (scan cv_string_sample cv_datetime_sample parse_datetime_sample
              slugify_sample "Tag" "uuid-1" dt_sample "tagA" (Some "deviceX")
              hass_sample).1 in
  helper_data h =
    {[ "tagA" := {[ TAG_ID := VStr "tagA";
                    LAST_SCANNED := VStr "2024-01-02T03:04:05.678901+00:00";
                    DEVICE_ID := VStr "deviceX" ]} ]} ∧
  entities (proj h) = {[ "tagA" := entity_sample ]} ∧
  pub_state <$> published (proj h) = [Some "2024-01-02T03:04:05.678+00:00"].
Proof. vm_compute. repeat split. Qed.

(** A second scan updates the record and republishes the state. *)
Example second_scan_updates :
  let scan' := scan cv_string_sample cv_datetime_sample parse_datetime_sample
                 slugify_sample "Tag" "uuid-1" in
  let h1 := (scan' dt_sample "tagA" (Some "deviceX") hass_sample).1 in
  let h2 := (scan' dt_sample2 "tagA" (Some "deviceY") h1).1 in
  helper_data h2 = {[ "tagA" := record_rescanned ]} ∧
  pub_state <$> published (proj h2) =
    [Some "2024-01-02T03:04:05.678+00:00"; Some "2024-01-02T03:04:06.000+00:00"] ∧
  length (bus h2) = 2%nat.
Proof. vm_compute. repeat split. Qed.

(** ** The theorems at concrete inputs *)

Lemma scan_updates_known_creates_unknown_witness :
  (∃ event_data,
     async_scan_tag {[ DOMAIN ]} records_sample dt_sample2 "tagA"
                    (Some "deviceY") =
     Ok [ Fire EVENT_TAG_SCANNED event_data;
          UpdateItem "tagA"
            {[ LAST_SCANNED := VDatetime dt_sample2;
               DEVICE_ID := VStr "deviceY" ]} ]) ∧
  (∃ event_data,
     async_scan_tag {[ DOMAIN ]} records_sample dt_sample2 "tagB" None =
     Ok [ Fire EVENT_TAG_SCANNED event_data;
          CreateItem
            {[ TAG_ID := VStr "tagB";
               LAST_SCANNED := VDatetime dt_sample2;
               DEVICE_ID := VStr "" ]} ]).
Proof.
  assert (DOMAIN ∈ ({[ DOMAIN ]} : gset string)) as Hset
    by (apply elem_of_singleton; reflexivity).
  split.
  - apply (scan_updates_known_creates_unknown
             {[ DOMAIN ]} records_sample dt_sample2 "tagA" (Some "deviceY") Hset).
    exists item_sample. reflexivity.
  - apply (scan_updates_known_creates_unknown
             {[ DOMAIN ]} records_sample dt_sample2 "tagB" None Hset).
    reflexivity.
Defined.

Lemma scan_fires_event_before_mutation_witness :
  ∃ mutation,
    async_scan_tag {[ DOMAIN ]} records_sample dt_sample2 "tagA"
                   (Some "deviceY") =
    Ok [ Fire EVENT_TAG_SCANNED
           {[ TAG_ID := VStr "tagA";
              CONF_NAME := VStr "Kitchen";
              DEVICE_ID := VStr "deviceY" ]};
         mutation ] ∧
    is_mutation mutation = true.
Proof.
  apply (scan_fires_event_before_mutation
           {[ DOMAIN ]} records_sample dt_sample2 "tagA" (Some "deviceY")).
  apply elem_of_singleton. reflexivity.
Defined.

Lemma create_without_id_raises_KeyError_witness :
  _process_create_data cv_string_sample cv_datetime_sample "uuid-1"
    payload_no_id = Err (KeyError TAG_ID) ∧
  async_create_item cv_string_sample cv_datetime_sample "uuid-1"
    payload_no_id records_sample = (records_sample, Err (KeyError TAG_ID)).
Proof.
  apply create_without_id_raises_KeyError.
  - reflexivity.
  - vm_compute. reflexivity.
Defined.

Lemma create_with_taken_id_conflicts_witness :
  async_create_item cv_string_sample cv_datetime_sample "uuid-1"
    payload_taken records_sample =
  (records_sample, Err (TagIDExistsError "tagA")) ∧
  generate_id records_sample "tagB" = Ok "tagB".
Proof.
  destruct (create_with_taken_id_conflicts cv_string_sample cv_datetime_sample
              records_sample) as [Htaken Hfree].
  split.
  - apply (Htaken "uuid-1" payload_taken (VStr "tagA") "tagA").
    + vm_compute. reflexivity.
    + reflexivity.
    + reflexivity.
    + discriminate.
    + exists item_sample. reflexivity.
  - apply Hfree. reflexivity.
Defined.


Lemma state_reformats_or_raises_witness :
  state parse_datetime_sample parse_datetime_raises_sample entity_sample =
    Ok (Some "2024-01-02T03:04:05.678+00:00") ∧
  state parse_datetime_sample parse_datetime_raises_sample entity_unscanned =
    Ok None ∧
  state parse_datetime_sample parse_datetime_raises_sample
    entity_impossible_date = Err ValueError.
Proof.
  split; [|split].
  - destruct (state_reformats_or_raises parse_datetime_sample
                parse_datetime_raises_sample entity_sample)
      as (_ & Hsome & _).
    apply Hsome. exists dt_sample. split; reflexivity.
  - destruct (state_reformats_or_raises parse_datetime_sample
                parse_datetime_raises_sample entity_unscanned)
      as (_ & _ & _ & _ & Hempty).
    apply Hempty; reflexivity.
  - destruct (state_reformats_or_raises parse_datetime_sample
                parse_datetime_raises_sample entity_impossible_date)
      as (_ & _ & Hraise & _).
    apply Hraise. reflexivity.
Defined.

Lemma update_data_merges_patch_witness :
  (∃ data,
     _update_data cv_string_sample cv_datetime_sample item_sample patch_sample =
     Ok data ∧
     data !! CONF_NAME = Some (VStr "Hall") ∧
     data !! LAST_SCANNED = Some (VStr "2024-01-02T03:04:05.678901+00:00") ∧
     data !! DEVICE_ID = Some (VStr "deviceX") ∧
     data !! TAG_ID = Some (VStr "tagA")) ∧
  _update_data cv_string_sample cv_datetime_sample item_sample
    patch_empty_name = Err Invalid.
Proof.
  split.
  - destruct (update_data_merges_patch cv_string_sample cv_datetime_sample
                item_sample patch_sample) as [Hvalid _].
    destruct Hvalid as (data & Hd & Hl).
    { apply (bool_decide_unpack _). vm_compute. exact I. }
    exists data. split; [exact Hd|].
    rewrite !Hl. repeat split.
  - destruct (update_data_merges_patch cv_string_sample cv_datetime_sample
                item_sample patch_empty_name) as [_ Hinvalid].
    apply (Hinvalid CONF_NAME (VStr "")); reflexivity.
Defined.

Lemma update_never_changes_id_witness :
  _update_data cv_string_sample cv_datetime_sample item_sample patch_with_id =
    Err Invalid ∧
  ∃ after,
    update_all cv_string_sample cv_datetime_sample item_sample
      [patch_sample; patch_device] = Ok after ∧
    length after = 2%nat ∧
    Forall (λ r, r !! TAG_ID = Some (VStr "tagA")) after.
Proof.
  destruct (update_never_changes_id cv_string_sample cv_datetime_sample
              item_sample) as [Hrefused Hkept].
  split.
  - apply Hrefused. exists (VStr "tagB"). reflexivity.
  - destruct (update_all cv_string_sample cv_datetime_sample item_sample
                [patch_sample; patch_device]) as [after|e] eqn:Hu.
    + exists after. split; [reflexivity|]. exact (Hkept _ _ Hu).
    + vm_compute in Hu. discriminate Hu.
Defined.

Lemma stored_last_scanned_is_iso_string_witness :
  (∃ records' n,
     async_create_item cv_string_sample cv_datetime_sample "uuid-1"
       payload_scan records_sample = (records', Ok n) ∧
     records' !! n_item_id n = Some (n_item n) ∧
     n_item n !! LAST_SCANNED =
       Some (VStr "2024-01-02T03:04:05.678901+00:00")) ∧
  (∃ records' n,
     async_update_item cv_string_sample cv_datetime_sample "tagA"
       patch_scan records_sample = (records', Ok n) ∧
     records' !! "tagA" = Some (n_item n) ∧
     n_item n !! LAST_SCANNED = Some (VStr "2024-01-02T03:04:06+00:00")) ∧
  map_Forall (λ _, last_scanned_is_str)
    (serve_all cv_string_sample cv_datetime_sample
       [ReqCreate "uuid-1" payload_scan; ReqUpdate "tagB" patch_scan;
        ReqDelete "tagA"] records_sample).
Proof.
  destruct (stored_last_scanned_is_iso_string cv_string_sample
              cv_datetime_sample) as (Hcreate & Hupdate & Hinv).
  split; [|split].
  - destruct (async_create_item cv_string_sample cv_datetime_sample "uuid-1"
                payload_scan records_sample) as [records' [n|e]] eqn:Hc.
    + exists records', n. split; [reflexivity|].
      apply (Hcreate "uuid-1" payload_scan records_sample records' n dt_sample);
        [reflexivity|reflexivity|exact Hc].
    + vm_compute in Hc. discriminate Hc.
  - destruct (async_update_item cv_string_sample cv_datetime_sample "tagA"
                patch_scan records_sample) as [records' [n|e]] eqn:Hu.
    + exists records', n. split; [reflexivity|].
      apply (Hupdate "tagA" patch_scan records_sample records' n dt_sample2);
        [reflexivity|reflexivity|exact Hu].
    + vm_compute in Hu. discriminate Hu.
  - apply Hinv. apply map_Forall_singleton. vm_compute. exact I.
Defined.

Lemma entity_id_is_slug_of_name_witness :
  ∃ p1 p2 e1 e2,
    tag_change_listener parse_datetime_sample slugify_sample "Tag"
      CHANGE_ADDED "tagA" record_a projector_empty = Ok p1 ∧
    tag_change_listener parse_datetime_sample slugify_sample "Tag"
      CHANGE_ADDED "tagB" record_b p1 = Ok p2 ∧
    entity_id e1 = "tag.tag" ∧
    entity_id e2 = "tag.tag" ∧
    _tag_id e1 ≠ _tag_id e2 ∧
    entities p2 !! _tag_id e1 = Some e1 ∧
    entities p2 !! _tag_id e2 = Some e2 ∧
    states p2 !! "tag.tag" = Some (publication_of parse_datetime_sample e2).
Proof.
  destruct (tag_change_listener parse_datetime_sample slugify_sample "Tag"
              CHANGE_ADDED "tagA" record_a projector_empty) as [p1|e] eqn:H1;
    [|vm_compute in H1; discriminate H1].
  destruct (tag_change_listener parse_datetime_sample slugify_sample "Tag"
              CHANGE_ADDED "tagB" record_b p1) as [p2|e] eqn:H2.
  - destruct (entity_id_is_slug_of_name parse_datetime_sample slugify_sample
                "Tag" record_a record_b "tagA" "tagB" projector_empty p1 p2)
      as (name & e1 & e2 & Hn1 & _ & Hid1 & Hid2 & Hne & Hl1 & Hl2 & Hst & _);
      [reflexivity|discriminate|exact H1|exact H2|].
    injection Hn1 as <-.
    exists p1, p2, e1, e2. repeat split; assumption.
  - vm_compute in H1. injection H1 as <-. vm_compute in H2. discriminate H2.
Defined.

(** ** The further properties at concrete inputs *)

Lemma update_data_raises_only_invalid_witness :
  Invalid = Invalid ∧
  ∃ k v, patch_empty_name !! k = Some v ∧
         update_field_spec cv_string_sample cv_datetime_sample k v = None.
Proof.
  apply (update_data_raises_only_invalid cv_string_sample cv_datetime_sample
           item_sample patch_empty_name Invalid).
  vm_compute. reflexivity.
Defined.

Lemma update_data_idempotent_witness :
  _update_data cv_string_sample cv_datetime_sample item_updated patch_sample =
  Ok item_updated.
Proof.
  apply (update_data_idempotent cv_string_sample cv_datetime_sample
           item_sample patch_sample item_updated).
  vm_compute. reflexivity.
Defined.

Lemma update_data_composes_witness :
  _update_data cv_string_sample cv_datetime_sample item_sample
    (patch_device ∪ patch_sample) = Ok item_updated_twice.
Proof.
  apply (update_data_composes cv_string_sample cv_datetime_sample
           item_sample patch_sample patch_device item_updated
           item_updated_twice).
  - vm_compute. reflexivity.
  - vm_compute. reflexivity.
Defined.

Lemma update_data_fields_witness :
  is_Some (item_updated !! LAST_SCANNED) ↔
  is_Some (patch_sample !! LAST_SCANNED) ∨ is_Some (item_sample !! LAST_SCANNED).
Proof.
  apply (update_data_fields cv_string_sample cv_datetime_sample
           item_sample patch_sample item_updated).
  vm_compute. reflexivity.
Defined.

Lemma process_create_data_succeeds_iff_witness :
  is_ok (_process_create_data cv_string_sample cv_datetime_sample "uuid-1"
           payload_scan) = true ∧
  (KeyError TAG_ID = Invalid ∧
   is_ok (CREATE_SCHEMA cv_string_sample cv_datetime_sample payload_no_id) =
   false ∨
   KeyError TAG_ID = KeyError TAG_ID ∧
   is_ok (CREATE_SCHEMA cv_string_sample cv_datetime_sample payload_no_id) =
   true ∧
   payload_no_id !! TAG_ID = None).
Proof.
  split.
  - destruct (process_create_data_succeeds_iff cv_string_sample
                cv_datetime_sample "uuid-1" payload_scan) as [[_ Hok] _].
    apply Hok. split; [vm_compute; reflexivity|].
    exists (VStr "tagB"). reflexivity.
  - destruct (process_create_data_succeeds_iff cv_string_sample
                cv_datetime_sample "uuid-1" payload_no_id) as [_ Herr].
    apply Herr. vm_compute. reflexivity.
Defined.

Lemma process_create_data_result_witness :
  ∃ data,
    _process_create_data cv_string_sample cv_datetime_sample "uuid-1"
      payload_empty_id = Ok data ∧
    data !! TAG_ID = Some (VStr "uuid-1") ∧
    (∀ k, k ≠ TAG_ID → k ≠ LAST_SCANNED →
          data !! k =
          payload_empty_id !! k ≫=
            update_field_spec cv_string_sample cv_datetime_sample k) ∧
    (∀ k, is_Some (data !! k) ↔ is_Some (payload_empty_id !! k)).
Proof.
  apply (process_create_data_result cv_string_sample cv_datetime_sample
           "uuid-1" payload_empty_id (VStr "") "").
  - vm_compute. reflexivity.
  - reflexivity.
  - reflexivity.
Defined.

Lemma stored_records_hold_strings_witness :
  all_strings record_scanned_b ∧ all_strings record_scanned_b_again.
Proof.
  destruct (stored_records_hold_strings cv_string_sample cv_datetime_sample)
    as [Hcreate Hupdate].
  assert (all_strings record_scanned_b) as Hb.
  { apply (Hcreate "uuid-1" payload_scan record_scanned_b).
    vm_compute. reflexivity. }
  split; [exact Hb|].
  apply (Hupdate record_scanned_b patch_device record_scanned_b_again Hb).
  vm_compute. reflexivity.
Defined.

Lemma suggested_id_is_not_empty_witness :
  ∃ s, _get_suggested_id record_uuid = Ok s ∧ s ≠ "" ∧
       record_uuid !! TAG_ID = Some (VStr s).
Proof.
  apply (suggested_id_is_not_empty cv_string_sample cv_datetime_sample
           "uuid-1" payload_empty_id record_uuid).
  - discriminate.
  - vm_compute. reflexivity.
Defined.

Lemma create_schema_is_update_schema_plus_id_witness :
  is_ok (CREATE_SCHEMA cv_string_sample cv_datetime_sample payload_taken) = true.
Proof.
  apply (create_schema_is_update_schema_plus_id cv_string_sample
           cv_datetime_sample payload_taken).
  split.
  - vm_compute. reflexivity.
  - intros v Hv. vm_compute in Hv. injection Hv as <-.
    exists "tagA". reflexivity.
Defined.

Lemma scan_create_payload_is_accepted_witness :
  ∃ event_data payload,
    async_scan_tag {[ DOMAIN ]} records_sample dt_sample "" (Some "deviceX") =
      Ok [ Fire EVENT_TAG_SCANNED event_data; CreateItem payload ] ∧
    _process_create_data cv_string_sample cv_datetime_sample "uuid-1" payload =
      Ok {[ TAG_ID := VStr "uuid-1";
            LAST_SCANNED := VStr (isoformat Auto dt_sample);
            DEVICE_ID := VStr "deviceX" ]}.
Proof.
  apply (scan_create_payload_is_accepted cv_string_sample cv_datetime_sample
           {[ DOMAIN ]} records_sample dt_sample "" (Some "deviceX") "uuid-1").
  - intros s. reflexivity.
  - intros d. reflexivity.
  - apply elem_of_singleton. reflexivity.
  - reflexivity.
Defined.

Lemma scan_update_patch_is_accepted_witness :
  ∃ event_data patch,
    async_scan_tag {[ DOMAIN ]} records_sample dt_sample2 "tagA" None =
      Ok [ Fire EVENT_TAG_SCANNED event_data; UpdateItem "tagA" patch ] ∧
    _update_data cv_string_sample cv_datetime_sample item_sample patch =
      Ok (<[ LAST_SCANNED := VStr (isoformat Auto dt_sample2) ]>
            (<[ DEVICE_ID := VStr "" ]> item_sample)).
Proof.
  apply (scan_update_patch_is_accepted cv_string_sample cv_datetime_sample
           {[ DOMAIN ]} records_sample dt_sample2 "tagA" None item_sample).
  - intros s. reflexivity.
  - intros d. reflexivity.
  - apply elem_of_singleton. reflexivity.
  - reflexivity.
Defined.

Lemma listener_unknown_tag_raises_KeyError_witness :
  tag_change_listener parse_datetime_sample slugify_sample "Tag"
    CHANGE_REMOVED "tagB" record_b projector_sample = Err (KeyError "tagB") ∧
  tag_change_listener parse_datetime_sample slugify_sample "Tag"
    CHANGE_UPDATED "x" payload_no_id projector_sample = Err (KeyError TAG_ID).
Proof.
  split.
  - destruct (listener_unknown_tag_raises_KeyError parse_datetime_sample
                slugify_sample "Tag" CHANGE_REMOVED "tagB" record_b
                projector_sample) as [_ Hentity]; [discriminate|].
    apply Hentity; reflexivity.
  - destruct (listener_unknown_tag_raises_KeyError parse_datetime_sample
                slugify_sample "Tag" CHANGE_UPDATED "x" payload_no_id
                projector_sample) as [Hkey _]; [discriminate|].
    apply Hkey. reflexivity.
Defined.

Lemma listener_keeps_entities_keyed_witness :
  ∃ p1,
    tag_change_listener parse_datetime_sample slugify_sample "Tag"
      CHANGE_ADDED "tagA" record_a projector_empty = Ok p1 ∧
    entities_keyed slugify_sample p1.
Proof.
  destruct (tag_change_listener parse_datetime_sample slugify_sample "Tag"
              CHANGE_ADDED "tagA" record_a projector_empty) as [p1|e] eqn:H1;
    [|vm_compute in H1; discriminate H1].
  exists p1. split; [reflexivity|].
  apply (listener_keeps_entities_keyed parse_datetime_sample slugify_sample
           "Tag" CHANGE_ADDED "tagA" record_a projector_empty p1);
    [|exact H1].
  apply map_Forall_empty.
Defined.

Lemma listener_touches_one_entity_witness :
  ∃ p1,
    tag_change_listener parse_datetime_sample slugify_sample "Tag"
      CHANGE_ADDED "tagB" record_b projector_sample = Ok p1 ∧
    entities p1 !! "tagA" = Some entity_sample.
Proof.
  destruct (tag_change_listener parse_datetime_sample slugify_sample "Tag"
              CHANGE_ADDED "tagB" record_b projector_sample) as [p1|e] eqn:H1;
    [|vm_compute in H1; discriminate H1].
  exists p1. split; [reflexivity|].
  rewrite (listener_touches_one_entity parse_datetime_sample slugify_sample
             "Tag" CHANGE_ADDED "tagB" record_b projector_sample p1
             "tagB" "tagA"); [reflexivity|reflexivity|exact H1|discriminate].
Defined.

Lemma duplicate_update_publishes_once_witness :
  ∃ p1,
    tag_change_listener parse_datetime_sample slugify_sample "Tag"
      CHANGE_UPDATED "tagA" record_rescanned projector_sample = Ok p1 ∧
    tag_change_listener parse_datetime_sample slugify_sample "Tag"
      CHANGE_UPDATED "tagA" record_rescanned p1 = Ok p1.
Proof.
  destruct (tag_change_listener parse_datetime_sample slugify_sample "Tag"
              CHANGE_UPDATED "tagA" record_rescanned projector_sample)
    as [p1|e] eqn:H1; [|vm_compute in H1; discriminate H1].
  exists p1. split; [reflexivity|].
  exact (duplicate_update_publishes_once parse_datetime_sample slugify_sample
           "Tag" "tagA" record_rescanned projector_sample p1 H1).
Defined.

Lemma added_then_removed_restores_entities_witness :
  ∃ p1 p2 e,
    tag_change_listener parse_datetime_sample slugify_sample "Tag"
      CHANGE_ADDED "tagB" record_b projector_sample = Ok p1 ∧
    tag_change_listener parse_datetime_sample slugify_sample "Tag"
      CHANGE_REMOVED "tagB" record_b p1 = Ok p2 ∧
    entity_of_config slugify_sample "Tag" record_b = Ok e ∧
    entities p2 = entities projector_sample ∧
    states p2 = delete (entity_id e) (states projector_sample) ∧
    published p2 =
      (published projector_sample ++
       [publication_of parse_datetime_sample e])%list.
Proof.
  destruct (tag_change_listener parse_datetime_sample slugify_sample "Tag"
              CHANGE_ADDED "tagB" record_b projector_sample) as [p1|e] eqn:H1;
    [|vm_compute in H1; discriminate H1].
  destruct (tag_change_listener parse_datetime_sample slugify_sample "Tag"
              CHANGE_REMOVED "tagB" record_b p1) as [p2|e] eqn:H2.
  - destruct (added_then_removed_restores_entities parse_datetime_sample
                slugify_sample "Tag" "tagB" record_b "tagB"
                projector_sample p1 p2) as (e & He & Hent & Hst & Hpub);
      [reflexivity|reflexivity|exact H1|exact H2|].
    exists p1, p2, e. repeat split; assumption.
  - vm_compute in H1. injection H1 as <-. vm_compute in H2. discriminate H2.
Defined.

Lemma removing_one_tag_removes_shared_state_witness :
  ∃ p3 e2,
    record_b !! TAG_ID = Some (VStr (_tag_id e2)) ∧
    entities p3 !! _tag_id e2 = Some e2 ∧
    states p3 !! entity_id e2 = None.
Proof.
  destruct (tag_change_listener parse_datetime_sample slugify_sample "Tag"
              CHANGE_ADDED "tagA" record_a projector_empty) as [p1|e] eqn:H1;
    [|vm_compute in H1; discriminate H1].
  destruct (tag_change_listener parse_datetime_sample slugify_sample "Tag"
              CHANGE_ADDED "tagB" record_b p1) as [p2|e] eqn:H2;
    [|vm_compute in H1; injection H1 as <-; vm_compute in H2;
      discriminate H2].
  destruct (tag_change_listener parse_datetime_sample slugify_sample "Tag"
              CHANGE_REMOVED "tagA" record_a p2) as [p3|e] eqn:H3.
  - destruct (removing_one_tag_removes_shared_state parse_datetime_sample
                slugify_sample "Tag" record_a record_b "tagA" "tagB" "tagA"
                projector_empty p1 p2 p3) as (e2 & Hid & Hent & Hst);
      [reflexivity|discriminate|exact H1|exact H2|exact H3|].
    exists p3, e2. repeat split; assumption.
  - vm_compute in H1. injection H1 as <-.
    vm_compute in H2. injection H2 as <-.
    vm_compute in H3. discriminate H3.
Defined.

Lemma setup_publishes_each_record_in_order_witness :
  ∃ p' es,
    setup_entities parse_datetime_sample slugify_sample "Tag"
      [record_a; record_scanned_b] projector_empty = Ok p' ∧
    Forall2 (λ tag e, entity_of_config slugify_sample "Tag" tag = Ok e)
      [record_a; record_scanned_b] es ∧
    published p' =
      (published projector_empty ++
       (publication_of parse_datetime_sample <$> es))%list ∧
    ∀ e, e ∈ es → is_Some (entities p' !! _tag_id e).
Proof.
  destruct (setup_entities parse_datetime_sample slugify_sample "Tag"
              [record_a; record_scanned_b] projector_empty)
    as [p'|e] eqn:Hs; [|vm_compute in Hs; discriminate Hs].
  destruct (setup_publishes_each_record_in_order parse_datetime_sample
              slugify_sample "Tag" [record_a; record_scanned_b]
              projector_empty p' Hs) as (es & Hes & Hpub & Hin).
  exists p', es. repeat split; assumption.
Defined.


Lemma scan_before_setup_changes_nothing_witness :
  async_scan_tag (components hass_not_set_up) (helper_data hass_not_set_up)
    dt_sample "tagA" None =
    Err (HomeAssistantError "tag component has not been set up.") ∧
  scan cv_string_sample cv_datetime_sample parse_datetime_sample
    slugify_sample "Tag" "uuid-1" dt_sample "tagA" None hass_not_set_up =
    (hass_not_set_up,
     Err (HomeAssistantError "tag component has not been set up.")).
Proof.
  apply (scan_before_setup_changes_nothing cv_string_sample cv_datetime_sample
           parse_datetime_sample slugify_sample "Tag" "uuid-1" dt_sample
           "tagA" None hass_not_set_up).
  apply not_elem_of_empty.
Defined.

(** ** Where the spec's sentences fail *)

(** C3, as the spec has it, fails on a create whose payload does not pass
    the schema, which raises [Invalid] before the id is looked at, and on
    the empty id, which the code replaces by the uuid4 token. *)
Lemma create_with_taken_id_counterexample :
  (payload_taken_empty_name !! TAG_ID = Some (VStr "tagA") ∧
   is_Some (records_sample !! "tagA") ∧
   async_create_item cv_string_sample cv_datetime_sample "uuid-1"
     payload_taken_empty_name records_sample = (records_sample, Err Invalid) ∧
   async_create_item cv_string_sample cv_datetime_sample "uuid-1"
     payload_taken_empty_name records_sample ≠
   (records_sample, Err (TagIDExistsError "tagA"))) ∧
  (payload_empty_id !! TAG_ID = Some (VStr "") ∧
   is_Some (records_empty_key !! "") ∧
   async_create_item cv_string_sample cv_datetime_sample "uuid-1"
     payload_empty_id records_empty_key =
   (<[ "uuid-1" := record_uuid ]> records_empty_key,
    Ok (mk_notification CHANGE_ADDED "uuid-1" record_uuid)) ∧
   <[ "uuid-1" := record_uuid ]> records_empty_key ≠ records_empty_key).
Proof.
  split.
  - split; [reflexivity|]. split; [exists item_sample; reflexivity|].
    assert (async_create_item cv_string_sample cv_datetime_sample "uuid-1"
              payload_taken_empty_name records_sample =
            (records_sample, Err Invalid)) as Hc
      by (vm_compute; reflexivity).
    split; [exact Hc|]. rewrite Hc. intros [=].
  - split; [reflexivity|].
    split; [exists ({[ TAG_ID := VStr "" ]} : dict); reflexivity|].
    split; [vm_compute; reflexivity|].
    intros Heq. apply (f_equal (λ m : gmap string dict, m !! "uuid-1")) in Heq.
    vm_compute in Heq. discriminate Heq.
Qed.

(** C5, as the spec has it, fails on a cached string that is well formed
    and is no valid date: the parser raises, and so does the read of the
    state, where the spec has it absent. *)
Lemma state_raises_on_impossible_date :
  _last_scanned entity_impossible_date = "2024-02-30T10:00:00" ∧
  dt_parse_datetime parse_datetime_sample parse_datetime_raises_sample
    "2024-02-30T10:00:00" = Err ValueError ∧
  state parse_datetime_sample parse_datetime_raises_sample
    entity_impossible_date = Err ValueError ∧
  state parse_datetime_sample parse_datetime_raises_sample
    entity_impossible_date ≠ Ok None.
Proof.
  split; [reflexivity|]. split; [reflexivity|]. split; [reflexivity|].
  intros [=].
Qed.
